(** * go-junit-report: the line classifier and report builder of parser/parser.go

    A shallow embedding of [Parse] and [Failures] and of the parts of the Go
    standard library they call ([regexp], [path], and, as an interface,
    [time.ParseDuration] and [json.Unmarshal]), followed by the properties
    of the parser.

    Conventions.
    - Go strings are byte strings: [string] (one [ascii] per byte).
    - [time.Duration] and [int] are 64-bit signed integers: [Z] with the
      wrap-around [wrap64] written at every addition.
    - [*Test] is an address into an explicit heap of [Test] objects; the
      maps of the accumulation buffer and the slices of the emitted packages
      store addresses, so aliasing between them is visible.
    - Go leaves the iteration order of [range] over a map unspecified: every
      loop over a map takes its order from a [RangeOrder], one per line. *)

From Stdlib Require Import ZArith Ascii String List Lia Bool.
From stdpp Require Import gmap strings list fin_maps.

Local Open Scope string_scope.
Local Open Scope Z_scope.
Local Open Scope list_scope.

(** ** regexp: a backtracking matcher with submatches

    [run r st] lists every way [r] can match at configuration [st], in the
    order a backtracking search tries them (alternatives left to right,
    greedy repetition longest first).  The head of the list at the leftmost
    starting offset is the leftmost-first match that Go's [regexp] returns.
    The matcher works on bytes; since every literal byte of the patterns
    below is ASCII and [.] and [[^ ]] accept every non-newline rune, byte
    and rune matching select the same submatches. *)
Module regexp.

Inductive Regexp : Type :=
| Empty                       (* the empty pattern *)
| Class (p : ascii -> bool)   (* one byte of a class *)
| Cat (r1 r2 : Regexp)
| Alt (r1 r2 : Regexp)        (* r1|r2, r1 preferred *)
| Star (r : Regexp)           (* r*, greedy *)
| Group (n : nat) (r : Regexp) (* capturing group number n *)
| Bol                         (* ^ *)
| Eol.                        (* $ *)

(** A configuration: the offset reached, the input left, the submatches. *)
Record Config : Type := mkConfig {
  pos : nat;
  rest : list ascii;
  caps : nat -> string
}.

Definition setcap (n : nat) (w : string) (c : nat -> string) : nat -> string :=
  fun m => if Nat.eqb m n then w else c m.

Definition consumed (st st' : Config) : string :=
  string_of_list_ascii (take (pos st' - pos st) (rest st)).

Fixpoint run (r : Regexp) (st : Config) : list Config :=
  match r with
  | Empty => [st]
  | Class p =>
      match rest st with
      | c :: s' => if p c then [mkConfig (S (pos st)) s' (caps st)] else []
      | [] => []
      end
  | Cat r1 r2 => flat_map (run r2) (run r1 st)
  | Alt r1 r2 => run r1 st ++ run r2 st
  | Star r1 =>
      (fix loop (fuel : nat) (st : Config) {struct fuel} : list Config :=
         match fuel with
         | O => [st]
         | S fuel' =>
             flat_map (fun st' =>
                         if Nat.ltb (length (rest st')) (length (rest st))
                         then loop fuel' st' else [])
                      (run r1 st) ++ [st]
         end) (length (rest st)) st
  | Group n r1 =>
      map (fun st' => mkConfig (pos st') (rest st')
                               (setcap n (consumed st st') (caps st')))
          (run r1 st)
  | Bol => if Nat.eqb (pos st) 0 then [st] else []
  | Eol => match rest st with [] => [st] | _ :: _ => [] end
  end.

(** Derived forms. *)
Definition Plus (r : Regexp) : Regexp := Cat r (Star r).
Definition Opt (r : Regexp) : Regexp := Alt r Empty.
Definition Byte (c : ascii) : Regexp := Class (Ascii.eqb c).
Fixpoint LitL (s : list ascii) : Regexp :=
  match s with
  | [] => Empty
  | c :: s' => Cat (Byte c) (LitL s')
  end.
Definition Lit (s : string) : Regexp := LitL (list_ascii_of_string s).
Fixpoint Seq (rs : list Regexp) : Regexp :=
  match rs with
  | [] => Empty
  | r :: rs' => Cat r (Seq rs')
  end.

(** Perl classes as RE2 defines them. *)
Definition between (lo hi : nat) (c : ascii) : bool :=
  let n := nat_of_ascii c in Nat.leb lo n && Nat.leb n hi.
Definition digit (c : ascii) : bool := between 48 57 c.               (* \d *)
Definition space (c : ascii) : bool :=                                 (* \s *)
  let n := nat_of_ascii c in
  Nat.eqb n 9 || Nat.eqb n 10 || Nat.eqb n 12 || Nat.eqb n 13 || Nat.eqb n 32.
Definition word (c : ascii) : bool :=                                  (* \w *)
  digit c || between 65 90 c || between 97 122 c || Nat.eqb (nat_of_ascii c) 95.
Definition anychar (c : ascii) : bool := negb (Nat.eqb (nat_of_ascii c) 10). (* . *)
Definition notblank (c : ascii) : bool := negb (Nat.eqb (nat_of_ascii c) 32). (* [^ ] *)

(** A compiled pattern: the expression and its number of groups. *)
Record Pattern : Type := MustCompile { expr : Regexp; NumSubexp : nat }.

(** The first match starting at one of the offsets [pos st], [pos st + 1],
    ...: the search of an unanchored pattern. *)
Fixpoint search (r : Regexp) (fuel : nat) (st : Config) : option Config :=
  match run (Group 0 r) st with
  | st' :: _ => Some st'
  | [] =>
      match fuel, rest st with
      | S fuel', _ :: s' => search r fuel' (mkConfig (S (pos st)) s' (caps st))
      | _, _ => None
      end
  end.

(** [re.FindStringSubmatch(s)]: nil ([[]]) when there is no match, else
    the whole match followed by the text of each group ([""] for a group
    that took no part). *)
Definition FindStringSubmatch (re : Pattern) (s : string) : list string :=
  let input := list_ascii_of_string s in
  match search (expr re) (length input) (mkConfig 0 input (fun _ => "")) with
  | Some st => map (caps st) (seq 0 (S (NumSubexp re)))
  | None => []
  end.

End regexp.

(** ** path.Base *)
Module path.

Definition slash : ascii := "/"%char.
Definition is_slash (c : ascii) : bool := Ascii.eqb c slash.

Fixpoint drop_while {A} (p : A -> bool) (l : list A) : list A :=
  match l with
  | x :: l' => if p x then drop_while p l' else l
  | [] => []
  end.

Fixpoint take_while {A} (p : A -> bool) (l : list A) : list A :=
  match l with
  | x :: l' => if p x then x :: take_while p l' else []
  | [] => []
  end.

(** [Base] returns the last element of the path: trailing slashes are
    removed first; the empty path gives ["."], a path of slashes ["/"]. *)
Definition Base (p : string) : string :=
  if String.eqb p "" then "."
  else
    (* strip trailing slashes *)
    let stripped := drop_while is_slash (rev (list_ascii_of_string p)) in
    (* keep what follows the last slash *)
    let last := rev (take_while (fun c => negb (is_slash c)) stripped) in
    match last with
    | [] => "/"
    | _ :: _ => string_of_list_ascii last
    end.

End path.

(** ** The patterns of the parser that [Parse] uses *)
Import regexp.

(** [--- (PASS|FAIL|SKIP): (.+) \((\d+\.\d+)(?: seconds|s)\)] *)
Definition regexStatus : Pattern :=
  MustCompile
    (Seq [ Lit "--- ";
           Group 1 (Alt (Lit "PASS") (Alt (Lit "FAIL") (Lit "SKIP")));
           Lit ": ";
           Group 2 (Plus (Class anychar));
           Lit " (";
           Group 3 (Seq [Plus (Class digit); Lit "."; Plus (Class digit)]);
           Alt (Lit " seconds") (Lit "s");
           Lit ")" ])
    3.

(** [^(ok|FAIL)\s+([^ ]+)\s+(?:(\d+\.\d+)s|\(cached\)|(\[\w+ failed]))
     (?:\s+coverage:\s+(\d+\.\d+)%\sof\sstatements(?:\sin\s.+)?)?$] *)
Definition regexResult : Pattern :=
  MustCompile
    (Seq [ Bol;
           Group 1 (Alt (Lit "ok") (Lit "FAIL"));
           Plus (Class space);
           Group 2 (Plus (Class notblank));
           Plus (Class space);
           Alt (Cat (Group 3 (Seq [Plus (Class digit); Lit "."; Plus (Class digit)]))
                    (Lit "s"))
               (Alt (Lit "(cached)")
                    (Group 4 (Seq [Lit "["; Plus (Class word); Lit " failed]"])));
           Opt (Seq [ Plus (Class space); Lit "coverage:"; Plus (Class space);
                      Group 5 (Seq [Plus (Class digit); Lit "."; Plus (Class digit)]);
                      Lit "%"; Class space; Lit "of"; Class space; Lit "statements";
                      Opt (Seq [Class space; Lit "in"; Class space;
                                Plus (Class anychar)]) ]);
           Eol ])
    5.

(** ** Data model (parser.go, lines 12-62) *)

(** [Result]: PASS is the zero value. *)
Inductive Result : Type := PASS | FAIL | SKIP.

#[global] Instance Result_eq_dec : EqDecision Result.
Proof. solve_decision. Defined.

(** [time.Duration]: nanoseconds in a signed 64-bit integer. *)
Definition wrap64 (z : Z) : Z := (z + 2 ^ 63) mod 2 ^ 64 - 2 ^ 63.
Definition Millisecond : Z := 1000000.
(** [int(x)] on a 64-bit platform. *)
Definition int (z : Z) : Z := wrap64 z.

(** The address of a [Test] object ([*Test], not nil). *)
Abbreviation ptr := nat.

Record Test : Type := mkTest {
  Test_Name : string;
  Test_Duration : Z;
  Test_Result : Result;
  Test_Output : list string;
  Test_Failure : list string;
  Test_SkipMsg : list string;
  Test_SubtestIndent : string;
  Test_Time : Z
}.

Record Benchmark : Type := mkBenchmark {
  Benchmark_Name : string;
  Benchmark_Duration : Z;
  Benchmark_Bytes : Z;
  Benchmark_Allocs : Z
}.

Record Package : Type := mkPackage {
  Package_Name : string;
  Package_Duration : Z;
  Package_Tests : list ptr;             (* []*Test *)
  Package_Benchmarks : list Benchmark;  (* []*Benchmark; none is ever allocated *)
  Package_CoveragePct : string;
  Package_Time : Z
}.

Record Report : Type := mkReport { Packages : list Package }.

(** The struct that a line is decoded into (parser.go, lines 98-102). *)
Record Info : Type := mkInfo {
  Info_Suite : string;
  Info_Test : string;
  Info_Msg : string
}.

(** [&Test{Name: name}]: every other field has its zero value. *)
Definition newTest (name : string) : Test :=
  mkTest name 0 PASS [] [] [] "" 0.

(** ** The Go runtime around the parser *)

(** Errors: [io.EOF] and any other error value. *)
Inductive error : Type :=
| io_EOF
| io_error (msg : string).

(** What [bufio.Reader.ReadLine] yields over the life of a reader: the
    lines, one per call, then an error ([io.EOF] at the end of the input).
    [Parse] ignores the prefix flag of [ReadLine], so each piece of a line
    longer than the reader's buffer is one line here. *)
Record Reader : Type := mkReader {
  reader_lines : list string;
  reader_err : error
}.

(** The two library calls whose result depends on more than the parser's
    own text.  [time_ParseDuration s] is [Some d] for [(d, nil)] and [None]
    when the library returns an error (and the duration 0);
    [json_Unmarshal line] is [Some info] when [json.Unmarshal([]byte(line),
    &info)] returns nil on a zero [info], [None] when it returns an error. *)
Class GoLib : Type := {
  time_ParseDuration : string -> option Z;
  json_Unmarshal : string -> option Info
}.

(** The memory that holds the [Test] objects: an address is an index;
    allocation appends.  An address outside the memory reads as the zero
    [Test] and a store there does nothing; [Parse] never uses one (lemma
    [step_wf]). *)
Definition load (h : list Test) (p : ptr) : Test := default (newTest "") (h !! p).
Definition store (h : list Test) (p : ptr) (t : Test) : list Test := <[p := t]> h.
Definition alloc (h : list Test) (t : Test) : list Test * ptr := (h ++ [t], length h).

(** The order in which the [range] loops of one line visit their maps: any
    permutation of the entries. *)
Record RangeOrder : Type := mkRangeOrder {
  rangeSuites : gmap string (gmap string ptr) -> list (string * gmap string ptr);
  rangeTests : string -> gmap string ptr -> list (string * ptr);
  rangeSuites_perm : forall m, rangeSuites m ≡ₚ map_to_list m;
  rangeTests_perm : forall suite m, rangeTests suite m ≡ₚ map_to_list m
}.

(** ** The parser (parser.go, lines 75-184 and 229-236) *)

(** The variables of [Parse] that live across lines, and the memory. *)
Record State : Type := mkState {
  report : Report;
  suites : gmap string (gmap string ptr);
  cur : option ptr;
  heap : list Test
}.

Definition init : State := mkState (mkReport []) ∅ None [].

Section Parser.
Context {lib : GoLib}.

Definition parseSeconds (t : string) : Z :=
  if String.eqb t "" then 0
  else match time_ParseDuration (t +:+ "s") with
       | Some d => d
       | None => 0   (* the error is ignored *)
       end.

(** Lines 108-119: the body of the loop over [suites]. *)
Definition flushSuite (ro : RangeOrder) (h : list Test)
    (suite : string) (testmap : gmap string ptr) : Package :=
  let '(finalTests, suiteTime) :=
    fold_left (fun (acc : list ptr * Z) (kv : string * ptr) =>
                 (acc.1 ++ [kv.2],
                  wrap64 (acc.2 + Test_Duration (load h kv.2))))
              (rangeTests ro suite testmap) ([], 0) in
  {| Package_Name := suite;
     Package_Duration := suiteTime;
     Package_Time := int (Z.quot suiteTime Millisecond);
     Package_Tests := finalTests;
     Package_Benchmarks := [];
     Package_CoveragePct := "" |}.

(** Lines 127-132: the first entry of one test map whose key is [curTest]. *)
Fixpoint findInTestmap (entries : list (string * ptr)) (curTest : string)
    : option ptr :=
  match entries with
  | [] => None
  | (test, testInfo) :: entries' =>
      if String.eqb test curTest then Some testInfo
      else findInTestmap entries' curTest
  end.

(** Lines 126-136: the loop over the suites, left at the first hit. *)
Fixpoint findTestdata (ro : RangeOrder)
    (order : list (string * gmap string ptr)) (curTest : string) : option ptr :=
  match order with
  | [] => None
  | (suite, testmap) :: order' =>
      match findInTestmap (rangeTests ro suite testmap) curTest with
      | Some testdata => Some testdata
      | None => findTestdata ro order' curTest
      end
  end.

(** Lines 144-150. *)
Definition statusResult (keyword : string) : Result :=
  if String.eqb keyword "PASS" then PASS
  else if String.eqb keyword "SKIP" then SKIP
  else FAIL.

Definition setStatus (t : Test) (r : Result) (d : Z) : Test :=
  mkTest (Test_Name t) d r (Test_Output t) (Test_Failure t) (Test_SkipMsg t)
         (Test_SubtestIndent t) (Test_Time t).
Definition appendOutput (t : Test) (msg : string) : Test :=
  mkTest (Test_Name t) (Test_Duration t) (Test_Result t) (Test_Output t ++ [msg])
         (Test_Failure t) (Test_SkipMsg t) (Test_SubtestIndent t) (Test_Time t).
Definition appendFailure (t : Test) (line : string) : Test :=
  mkTest (Test_Name t) (Test_Duration t) (Test_Result t) (Test_Output t)
         (Test_Failure t ++ [line]) (Test_SkipMsg t) (Test_SubtestIndent t)
         (Test_Time t).
Definition appendSkipMsg (t : Test) (line : string) : Test :=
  mkTest (Test_Name t) (Test_Duration t) (Test_Result t) (Test_Output t)
         (Test_Failure t) (Test_SkipMsg t ++ [line]) (Test_SubtestIndent t)
         (Test_Time t).

(** Lines 96-180: the body of the loop of [Parse] on one line. *)
Definition step (ro : RangeOrder) (s : State) (line : string) : State :=
  if Nat.eqb (length (FindStringSubmatch regexResult line)) 6 then
    (* lines 107-121 *)
    mkState
      (mkReport (Packages (report s) ++
                 map (fun e => flushSuite ro (heap s) e.1 e.2)
                     (rangeSuites ro (suites s))))
      ∅ (cur s) (heap s)
  else
    let matches := FindStringSubmatch regexStatus line in
    if Nat.eqb (length matches) 4 then
      (* lines 124-153 *)
      let curTest := path.Base (nth 2 matches "") in
      match findTestdata ro (rangeSuites ro (suites s)) curTest with
      | None => mkState (report s) (suites s) None (heap s)
      | Some testdata =>
          let t := setStatus (load (heap s) testdata)
                             (statusResult (nth 1 matches ""))
                             (parseSeconds (nth 3 matches "")) in
          mkState (report s) (suites s) (Some testdata)
                  (store (heap s) testdata t)
      end
    else
      match json_Unmarshal line with
      | Some info =>
          (* lines 155-173 *)
          match suites s !! Info_Suite info with
          | Some testmap =>
              match testmap !! Info_Test info with
              | Some test =>
                  mkState (report s) (suites s) (cur s)
                          (store (heap s) test
                                 (appendOutput (load (heap s) test) (Info_Msg info)))
              | None =>
                  let '(h, t) :=
                    alloc (heap s)
                          (appendOutput (newTest (Info_Test info)) (Info_Msg info)) in
                  mkState (report s)
                          (<[Info_Suite info := <[Info_Test info := t]> testmap]>
                             (suites s))
                          (cur s) h
              end
          | None =>
              let '(h, t) :=
                alloc (heap s)
                      (appendOutput (newTest (Info_Test info)) (Info_Msg info)) in
              mkState (report s)
                      (<[Info_Suite info := {[Info_Test info := t]}]> (suites s))
                      (cur s) h
          end
      | None =>
          (* lines 174-180 *)
          match cur s with
          | Some c =>
              match Test_Result (load (heap s) c) with
              | FAIL => mkState (report s) (suites s) (cur s)
                          (store (heap s) c (appendFailure (load (heap s) c) line))
              | SKIP => mkState (report s) (suites s) (cur s)
                          (store (heap s) c (appendSkipMsg (load (heap s) c) line))
              | PASS => s
              end
          | None => s
          end
      end.

(** Lines 88-94 and 181: the loop; line [n] of the input is processed
    with the range order [ros n]. *)
Fixpoint parseLoop (ros : nat -> RangeOrder) (n : nat) (s : State)
    (lines : list string) (err : error) : State + error :=
  match lines with
  | l :: lines' => parseLoop ros (S n) (step (ros n) s l) lines' err
  | [] =>
      match err with
      | io_EOF => inl s      (* break *)
      | _ => inr err         (* return nil, err *)
      end
  end.

(** The state after the lines alone. *)
Fixpoint runLines (ros : nat -> RangeOrder) (n : nat) (s : State)
    (lines : list string) : State :=
  match lines with
  | l :: lines' => runLines ros (S n) (step (ros n) s l) lines'
  | [] => s
  end.

(** [Parse(r, pkgName)]: the returned [*Report] (nil as [None]), the
    returned error (nil as [None]), and the memory that the addresses in
    the report refer to. *)
Definition Parse (ros : nat -> RangeOrder) (r : Reader) (pkgName : string)
    : option Report * option error * list Test :=
  match parseLoop ros 0 init (reader_lines r) (reader_err r) with
  | inl s => (Some (report s), None, heap s)
  | inr e => (None, Some e, [])
  end.

End Parser.

(** Lines 257-270.  [None] is the panic of dereferencing a [*Test] that
    points at no [Test] (nil); [count] is an [int]. *)
Definition Failures (h : list Test) (r : Report) : option Z :=
  foldl (fun (count : option Z) (p : Package) =>
           foldl (fun (count : option Z) (t : ptr) =>
                    count ← count;
                    t ← h !! t;
                    Some (if decide (Test_Result t = FAIL)
                          then int (count + 1) else count))
                 count (Package_Tests p))
        (Some 0) (Packages r).

(** The order that [map_to_list] gives, as one possible range order. *)
Definition canonicalOrder : RangeOrder :=
  mkRangeOrder map_to_list (fun _ => map_to_list)
               (fun _ => reflexivity _) (fun _ _ => reflexivity _).

(** ** Reference models of the two library calls

    Used to run the parser on concrete inputs.  The theorems below hold for
    every [GoLib]; these models fix one, following the Go sources. *)

(** [encoding/json], decoding into [Info].  The whole text has to be one
    valid JSON value.  [null] leaves the struct untouched; an object sets
    the fields whose key matches a field name (exactly or up to ASCII case),
    skips other keys, ignores [null] values, and reports an error when a
    matched key holds anything but a string or [null]; any other value is an
    error.  Not modelled: the replacement of invalid UTF-8 by U+FFFD, the
    folding of the two non-ASCII letters that Go equates with [s] and [k],
    and the nesting limit of the scanner. *)
Module json.

Local Unset Elimination Schemes.
Inductive Value : Type :=
| Null
| Bool (b : bool)
| Number
| Str (s : list ascii)
| Array (elems : list Value)
| Object (members : list (list ascii * Value)).
Local Set Elimination Schemes.

Definition code (c : ascii) : N := N_of_ascii c.
(** The double quote. *)
Definition dquote : ascii := ascii_of_nat 34.
Definition chr (c : ascii) (x : string) : bool :=
  match x with
  | String d EmptyString => Ascii.eqb c d
  | _ => false
  end.

Definition is_ws (c : ascii) : bool :=
  (code c =? 32)%N || (code c =? 9)%N || (code c =? 10)%N || (code c =? 13)%N.

Fixpoint skipws (l : list ascii) : list ascii :=
  match l with
  | c :: l' => if is_ws c then skipws l' else l
  | [] => []
  end.

Fixpoint strip (p l : list ascii) : option (list ascii) :=
  match p, l with
  | [], _ => Some l
  | a :: p', c :: l' => if Ascii.eqb a c then strip p' l' else None
  | _ :: _, [] => None
  end.

Definition hexval (c : ascii) : option N :=
  let n := code c in
  if (48 <=? n)%N && (n <=? 57)%N then Some (n - 48)%N
  else if (97 <=? n)%N && (n <=? 102)%N then Some (n - 87)%N
  else if (65 <=? n)%N && (n <=? 70)%N then Some (n - 55)%N
  else None.

(** [getu4]: the code unit of a [\uXXXX] escape at the head of the text. *)
Definition getu4 (l : list ascii) : option (N * list ascii) :=
  match l with
  | b :: u :: h1 :: h2 :: h3 :: h4 :: l' =>
      if chr b "\" && chr u "u" then
        match hexval h1, hexval h2, hexval h3, hexval h4 with
        | Some a, Some b, Some c, Some d =>
            Some ((a * 4096 + b * 256 + c * 16 + d)%N, l')
        | _, _, _, _ => None
        end
      else None
  | _ => None
  end.

Definition byte (n : N) : ascii := ascii_of_N n.

(** [utf8.EncodeRune]. *)
Definition encodeRune (r : N) : list ascii :=
  if (r <? 128)%N then [byte r]
  else if (r <? 2048)%N then [byte (192 + r / 64); byte (128 + r mod 64)]%N
  else if (r <? 65536)%N then
    [byte (224 + r / 4096); byte (128 + (r / 64) mod 64); byte (128 + r mod 64)]%N
  else
    [byte (240 + r / 262144); byte (128 + (r / 4096) mod 64);
     byte (128 + (r / 64) mod 64); byte (128 + r mod 64)]%N.

Definition replacementChar : N := 65533.
Definition isSurrogate (r : N) : bool := (55296 <=? r)%N && (r <? 57344)%N.

Definition escape (c : ascii) : option ascii :=
  if Ascii.eqb c dquote || chr c "\" || chr c "/" then Some c
  else if chr c "b" then Some (byte 8)
  else if chr c "f" then Some (byte 12)
  else if chr c "n" then Some (byte 10)
  else if chr c "r" then Some (byte 13)
  else if chr c "t" then Some (byte 9)
  else None.

(** The text of a string literal after its opening quote, unquoted. *)
Fixpoint stringBody (fuel : nat) (l : list ascii)
    : option (list ascii * list ascii) :=
  match fuel, l with
  | S fuel', c :: l' =>
      if Ascii.eqb c dquote then Some ([], l')
      else if chr c "\" then
        match l' with
        | e :: l2 =>
            if chr e "u" then
              match getu4 l with
              | Some (rr, l3) =>
                  let '(bytes, l4) :=
                    if isSurrogate rr then
                      match getu4 l3 with
                      | Some (rr1, l4) =>
                          if (rr <? 56320)%N && (56320 <=? rr1)%N && (rr1 <? 57344)%N
                          then (encodeRune (65536 + (rr - 55296) * 1024
                                            + (rr1 - 56320))%N, l4)
                          else (encodeRune replacementChar, l3)
                      | None => (encodeRune replacementChar, l3)
                      end
                    else (encodeRune rr, l3) in
                  '(s, r) ← stringBody fuel' l4; Some (bytes ++ s, r)
              | None => None
              end
            else
              b ← escape e; '(s, r) ← stringBody fuel' l2; Some (b :: s, r)
        | [] => None
        end
      else if (code c <? 32)%N then None
      else '(s, r) ← stringBody fuel' l'; Some (c :: s, r)
  | _, _ => None
  end.

Definition isDigit (c : ascii) : bool := (48 <=? code c)%N && (code c <=? 57)%N.

Fixpoint skipDigits (l : list ascii) : list ascii :=
  match l with
  | c :: l' => if isDigit c then skipDigits l' else l
  | [] => []
  end.

Definition digits1 (l : list ascii) : option (list ascii) :=
  match l with
  | c :: l' => if isDigit c then Some (skipDigits l') else None
  | [] => None
  end.

(** A number literal: an optional minus, an integer part without a leading
    zero, an optional fraction and an optional exponent. *)
Definition number (l : list ascii) : option (list ascii) :=
  let l := match l with c :: l' => if chr c "-" then l' else l | [] => l end in
  l ← match l with
      | c :: l' => if chr c "0" then Some l'
                   else if isDigit c then Some (skipDigits l') else None
      | [] => None
      end;
  l ← match l with
      | c :: l' => if chr c "." then digits1 l' else Some l
      | [] => Some l
      end;
  match l with
  | c :: l' =>
      if chr c "e" || chr c "E" then
        match l' with
        | sg :: l2 => if chr sg "+" || chr sg "-" then digits1 l2 else digits1 l'
        | [] => None
        end
      else Some l
  | [] => Some l
  end.

Fixpoint value (fuel : nat) (l : list ascii) : option (Value * list ascii) :=
  match fuel, l with
  | S fuel', c :: l' =>
      if chr c "n" then r ← strip (list_ascii_of_string "ull") l'; Some (Null, r)
      else if chr c "t" then
        r ← strip (list_ascii_of_string "rue") l'; Some (Bool true, r)
      else if chr c "f" then
        r ← strip (list_ascii_of_string "alse") l'; Some (Bool false, r)
      else if Ascii.eqb c dquote then
        '(s, r) ← stringBody (length l') l'; Some (Str s, r)
      else if chr c "[" then
        match skipws l' with
        | d :: r => if chr d "]" then Some (Array [], r)
                    else '(vs, r) ← elements fuel' (d :: r); Some (Array vs, r)
        | [] => None
        end
      else if chr c "{" then
        match skipws l' with
        | d :: r => if chr d "}" then Some (Object [], r)
                    else '(ms, r) ← members fuel' (d :: r); Some (Object ms, r)
        | [] => None
        end
      else r ← number l; Some (Number, r)
  | _, _ => None
  end
with elements (fuel : nat) (l : list ascii)
    : option (list Value * list ascii) :=
  match fuel with
  | S fuel' =>
      '(v, r) ← value fuel' l;
      match skipws r with
      | c :: r' =>
          if chr c "," then
            '(vs, r2) ← elements fuel' (skipws r'); Some (v :: vs, r2)
          else if chr c "]" then Some ([v], r')
          else None
      | [] => None
      end
  | O => None
  end
with members (fuel : nat) (l : list ascii)
    : option (list (list ascii * Value) * list ascii) :=
  match fuel, l with
  | S fuel', q :: l' =>
      if Ascii.eqb q dquote then
        '(k, r) ← stringBody (length l') l';
        match skipws r with
        | c :: r' =>
            if chr c ":" then
              '(v, r2) ← value fuel' (skipws r');
              match skipws r2 with
              | d :: r3 =>
                  if chr d "," then
                    '(ms, r4) ← members fuel' (skipws r3); Some ((k, v) :: ms, r4)
                  else if chr d "}" then Some ([(k, v)], r3)
                  else None
              | [] => None
              end
            else None
        | [] => None
        end
      else None
  | _, _ => None
  end.

(** The whole text as one value, blanks allowed around it. *)
Definition parse (text : string) : option Value :=
  let l := list_ascii_of_string text in
  '(v, r) ← value (2 * length l + 2) (skipws l);
  match skipws r with
  | [] => Some v
  | _ :: _ => None
  end.

Definition lower (c : ascii) : ascii :=
  if (65 <=? code c)%N && (code c <=? 90)%N then byte (code c + 32) else c.

Definition matchesField (key : list ascii) (name : string) : bool :=
  String.eqb (string_of_list_ascii (map lower key))
             (string_of_list_ascii (map lower (list_ascii_of_string name))).

Definition setField (acc : Info * bool) (m : list ascii * Value) : Info * bool :=
  let '(info, ok) := acc in
  let '(key, v) := m in
  let assign (f : string -> Info) : Info * bool :=
    match v with
    | Str s => (f (string_of_list_ascii s), ok)
    | Null => (info, ok)
    | _ => (info, false)
    end in
  if matchesField key "Suite" then
    assign (fun s => mkInfo s (Info_Test info) (Info_Msg info))
  else if matchesField key "Test" then
    assign (fun s => mkInfo (Info_Suite info) s (Info_Msg info))
  else if matchesField key "Msg" then
    assign (fun s => mkInfo (Info_Suite info) (Info_Test info) s)
  else (info, ok).

Definition Unmarshal (text : string) : option Info :=
  v ← parse text;
  match v with
  | Null => Some (mkInfo "" "" "")
  | Object ms =>
      let '(info, ok) := fold_left setField ms (mkInfo "" "" "", true) in
      if ok then Some info else None
  | _ => None
  end.

End json.

(** [time.ParseDuration] on the texts made of digits, an optional point
    and digits, and the unit [s], which include
    every text that a status line passes to [parseSeconds]; other texts are
    given as errors.  The library adds the fraction through one float64
    product and truncates it; with at most nine fractional digits that
    product is exact, and this model takes the exact truncated value
    throughout. *)
Module time.

Definition digitVal (c : ascii) : option Z :=
  let n := Z.of_N (N_of_ascii c) in
  if (48 <=? n) && (n <=? 57) then Some (n - 48) else None.

(** [leadingInt]: [None] on overflow. *)
Fixpoint leadingInt (x : Z) (l : list ascii) : option (Z * list ascii) :=
  match l with
  | c :: l' =>
      match digitVal c with
      | Some d =>
          if x >? 2 ^ 63 / 10 then None
          else let x' := x * 10 + d in
               if x' >? 2 ^ 63 then None else leadingInt x' l'
      | None => Some (x, l)
      end
  | [] => Some (x, l)
  end.

(** [leadingFraction]: digits past the capacity are read and dropped. *)
Fixpoint leadingFraction (x scale : Z) (overflow : bool) (l : list ascii)
    : Z * Z * list ascii :=
  match l with
  | c :: l' =>
      match digitVal c with
      | Some d =>
          if overflow then leadingFraction x scale true l'
          else if x >? (2 ^ 63 - 1) / 10 then leadingFraction x scale true l'
          else let y := x * 10 + d in
               if y >? 2 ^ 63 then leadingFraction x scale true l'
               else leadingFraction y (scale * 10) false l'
      | None => (x, scale, l)
      end
  | [] => (x, scale, l)
  end.

Definition Second : Z := 1000000000.

Definition ParseDuration (s : string) : option Z :=
  let l := list_ascii_of_string s in
  '(v, l1) ← leadingInt 0 l;
  let pre := negb (Nat.eqb (length l) (length l1)) in
  let '(f, scale, l2, post) :=
    match l1 with
    | c :: l1' =>
        if Ascii.eqb c "."%char then
          let '(f, scale, l2) := leadingFraction 0 1 false l1' in
          (f, scale, l2, negb (Nat.eqb (length l1') (length l2)))
        else (0, 1, l1, false)
    | [] => (0, 1, l1, false)
    end in
  if negb (pre || post) then None
  else if negb (String.eqb (string_of_list_ascii l2) "s") then None
  else if v >? 2 ^ 63 / Second then None
  else
    let v := v * Second + f * Second / scale in
    if v >? 2 ^ 63 - 1 then None else Some v.

End time.

#[global] Instance refLib : GoLib :=
  {| time_ParseDuration := time.ParseDuration;
     json_Unmarshal := json.Unmarshal |}.

(** ** Vocabulary of the properties *)

(** The rule that [step] applies to a line (first match wins). *)
Definition isResultLine (line : string) : bool :=
  Nat.eqb (length (FindStringSubmatch regexResult line)) 6.

Definition isStatusLine (line : string) : bool :=
  negb (isResultLine line)
  && Nat.eqb (length (FindStringSubmatch regexStatus line)) 4.

Definition isRecordLine {lib : GoLib} (line : string) : bool :=
  negb (isResultLine line)
  && negb (Nat.eqb (length (FindStringSubmatch regexStatus line)) 4)
  && bool_decide (is_Some (json_Unmarshal line)).

Definition isFreeText {lib : GoLib} (line : string) : bool :=
  negb (isResultLine line)
  && negb (Nat.eqb (length (FindStringSubmatch regexStatus line)) 4)
  && bool_decide (json_Unmarshal line = None).

(** The reduced test name that a status line looks up. *)
Definition statusName (line : string) : string :=
  path.Base (nth 2 (FindStringSubmatch regexStatus line) "").

Definition int64 (z : Z) : Prop := - 2 ^ 63 <= z < 2 ^ 63.

Definition sumZ (l : list Z) : Z := foldr Z.add 0 l.

(** The durations of the tests at the addresses [tests] in memory [h]. *)
Definition durations (h : list Test) (tests : list ptr) : list Z :=
  map (fun p => Test_Duration (load h p)) tests.

(** Every address held by the buffer, by [cur] and by the report is
    allocated; a test is filed under its own name; no test of the report is
    still in the buffer. *)
Record wf (s : State) : Prop := mkWf {
  wf_suites : forall suite testmap name p,
    suites s !! suite = Some testmap -> testmap !! name = Some p ->
    (p < length (heap s))%nat /\ Test_Name (load (heap s) p) = name;
  wf_cur : forall c, cur s = Some c -> (c < length (heap s))%nat;
  wf_report : forall pkg p,
    pkg ∈ Packages (report s) -> p ∈ Package_Tests pkg ->
    (p < length (heap s))%nat;
  wf_sep : forall pkg p suite testmap name,
    pkg ∈ Packages (report s) -> p ∈ Package_Tests pkg ->
    suites s !! suite = Some testmap -> testmap !! name <> Some p
}.

(** All test addresses of a report, package by package. *)
Definition allTests (r : Report) : list ptr :=
  concat (map Package_Tests (Packages r)).

(** Spec: the number of tests across all packages whose result is FAIL. *)
Definition countFailed (h : list Test) (r : Report) : nat :=
  length (filter (fun p => Test_Result (load h p) = FAIL) (allTests r)).

(** Spec: the line, as a whole, is a JSON object with exactly the three
    string fields Suite, Test and Msg. *)
Definition threeStringFields (line : string) : bool :=
  match json.parse line with
  | Some (json.Object [(k1, json.Str _); (k2, json.Str _); (k3, json.Str _)]) =>
      let keys := map string_of_list_ascii [k1; k2; k3] in
      bool_decide (keys ≡ₚ ["Suite"; "Test"; "Msg"])
  | _ => false
  end.

(** A record line as the test runner writes it. *)
Definition quoted (s : string) : string :=
  String json.dquote (s +:+ String json.dquote EmptyString).
Definition recordLine (suite test msg : string) : string :=
  "{" +:+ quoted "Suite" +:+ ":" +:+ quoted suite +:+ ","
  +:+ quoted "Test" +:+ ":" +:+ quoted test +:+ ","
  +:+ quoted "Msg" +:+ ":" +:+ quoted msg +:+ "}".

Definition canonical : nat -> RangeOrder := fun _ => canonicalOrder.

(** The rules of [step], as a classification of lines. *)
Inductive Rule : Type := RuleResult | RuleStatus | RuleRecord | RuleFallback.

(** The rule that [step] applies to a line. *)
Definition classify {lib : GoLib} (line : string) : Rule :=
  if isResultLine line then RuleResult
  else if Nat.eqb (length (FindStringSubmatch regexStatus line)) 4 then RuleStatus
  else if bool_decide (is_Some (json_Unmarshal line)) then RuleRecord
  else RuleFallback.

(** The cases of one step. *)
Section StepCases.
Context {lib : GoLib}.

(** What [step] does, rule by rule. *)
Inductive StepCase (ro : RangeOrder) (s : State) (line : string) : State -> Prop :=
| CaseResult :
    isResultLine line = true ->
    StepCase ro s line
      (mkState (mkReport (Packages (report s) ++
                          map (fun e => flushSuite ro (heap s) e.1 e.2)
                              (rangeSuites ro (suites s))))
               ∅ (cur s) (heap s))
| CaseStatusMiss :
    isStatusLine line = true ->
    (forall suite testmap,
        suites s !! suite = Some testmap -> testmap !! statusName line = None) ->
    StepCase ro s line (mkState (report s) (suites s) None (heap s))
| CaseStatusHit suite testmap p :
    isStatusLine line = true ->
    suites s !! suite = Some testmap ->
    testmap !! statusName line = Some p ->
    StepCase ro s line
      (mkState (report s) (suites s) (Some p)
         (store (heap s) p
            (setStatus (load (heap s) p)
               (statusResult (nth 1 (FindStringSubmatch regexStatus line) ""))
               (parseSeconds (nth 3 (FindStringSubmatch regexStatus line) "")))))
| CaseRecordAppend info testmap p :
    isRecordLine line = true ->
    json_Unmarshal line = Some info ->
    suites s !! Info_Suite info = Some testmap ->
    testmap !! Info_Test info = Some p ->
    StepCase ro s line
      (mkState (report s) (suites s) (cur s)
         (store (heap s) p (appendOutput (load (heap s) p) (Info_Msg info))))
| CaseRecordNewTest info testmap :
    isRecordLine line = true ->
    json_Unmarshal line = Some info ->
    suites s !! Info_Suite info = Some testmap ->
    testmap !! Info_Test info = None ->
    StepCase ro s line
      (mkState (report s)
         (<[Info_Suite info := <[Info_Test info := length (heap s)]> testmap]>
            (suites s))
         (cur s)
         (heap s ++ [appendOutput (newTest (Info_Test info)) (Info_Msg info)]))
| CaseRecordNewSuite info :
    isRecordLine line = true ->
    json_Unmarshal line = Some info ->
    suites s !! Info_Suite info = None ->
    StepCase ro s line
      (mkState (report s)
         (<[Info_Suite info := {[Info_Test info := length (heap s)]}]> (suites s))
         (cur s)
         (heap s ++ [appendOutput (newTest (Info_Test info)) (Info_Msg info)]))
| CaseFreeFail c :
    isFreeText line = true ->
    cur s = Some c ->
    Test_Result (load (heap s) c) = FAIL ->
    StepCase ro s line
      (mkState (report s) (suites s) (cur s)
         (store (heap s) c (appendFailure (load (heap s) c) line)))
| CaseFreeSkip c :
    isFreeText line = true ->
    cur s = Some c ->
    Test_Result (load (heap s) c) = SKIP ->
    StepCase ro s line
      (mkState (report s) (suites s) (cur s)
         (store (heap s) c (appendSkipMsg (load (heap s) c) line)))
| CaseFreeDrop :
    isFreeText line = true ->
    (cur s = None \/ exists c, cur s = Some c /\ Test_Result (load (heap s) c) = PASS) ->
    StepCase ro s line s.

End StepCases.

(** The group numbers of an expression. *)
Fixpoint groups (r : Regexp) : list nat :=
  match r with
  | Cat r1 r2 | Alt r1 r2 => groups r1 ++ groups r2
  | Star r1 => groups r1
  | Group n r1 => n :: groups r1
  | _ => []
  end.

(** The packages of the report never carry a coverage or a benchmark. *)
Definition plain (s : State) : Prop :=
  forall pkg, pkg ∈ Packages (report s) ->
    Package_CoveragePct pkg = "" /\ Package_Benchmarks pkg = [].

(** A test that no status line has named yet: as a record line made it. *)
Definition untouched (name : string) (p : ptr) (s : State) : Prop :=
  (p < length (heap s))%nat /\
  Test_Name (load (heap s) p) = name /\
  Test_Result (load (heap s) p) = PASS /\
  Test_Duration (load (heap s) p) = 0.

(** ** Example inputs *)

(** One record and a passing status line for it. *)
Definition passedFoo : State :=
  runLines (lib := refLib) canonical 0 init
    [recordLine "pkgA" "TestFoo" "hello\n"; "--- PASS: TestFoo (0.01s)"].

(** One record and a failing status line for it. *)
Definition failedFoo : State :=
  runLines (lib := refLib) canonical 0 init
    [recordLine "pkgA" "TestFoo" "hello\n"; "--- FAIL: TestFoo (0.02s)"].

(** Two tests of one package that each ran for 5000000000 seconds. *)
Definition longTests : State :=
  runLines (lib := refLib) canonical 0 init
    [recordLine "a" "A" "x"; recordLine "a" "B" "y";
     "--- PASS: A (5000000000.0s)"; "--- PASS: B (5000000000.0s)"].

(** The line feed, as a string. *)
Definition newline : string := String (ascii_of_nat 10) EmptyString.

(** Two packages with one failed test each and one passed test. *)
Definition twoFailures : list Test * Report :=
  ([setStatus (newTest "A") FAIL 1; newTest "B"; setStatus (newTest "C") FAIL 2],
   mkReport [mkPackage "p" 1 [0; 1]%nat [] "" 0; mkPackage "q" 2 [2%nat] [] "" 0]).

(** ** The rest of parser.go *)

(** The patterns that [Parse] does not use (lines 66-72). *)

Definition blankOrTab (c : ascii) : bool :=                (* [ \t] *)
  Nat.eqb (nat_of_ascii c) 32 || Nat.eqb (nat_of_ascii c) 9.
Definition notBlankOrDash (c : ascii) : bool :=            (* [^ -] *)
  negb (Nat.eqb (nat_of_ascii c) 32 || Nat.eqb (nat_of_ascii c) 45).
Definition tab (c : ascii) : bool := Nat.eqb (nat_of_ascii c) 9.

Definition decimal : Regexp :=
  Seq [Plus (Class digit); Lit "."; Plus (Class digit)].

(** [^([ \t]+)---] *)
Definition regexIndent : Pattern :=
  MustCompile (Seq [Bol; Group 1 (Plus (Class blankOrTab)); Lit "---"]) 1.

(** [^coverage:\s+(\d+\.\d+)%\s+of\s+statements(?:\sin\s.+)?$] *)
Definition regexCoverage : Pattern :=
  MustCompile
    (Seq [ Bol; Lit "coverage:"; Plus (Class space); Group 1 decimal; Lit "%";
           Plus (Class space); Lit "of"; Plus (Class space); Lit "statements";
           Opt (Seq [Class space; Lit "in"; Class space; Plus (Class anychar)]);
           Eol ])
    1.

(** [^(Benchmark[^ -]+)(?:-\d+\s+|\s+)(\d+)\s+(\d+|\d+\.\d+)\sns/op
     (?:\s+(\d+)\sB/op)?(?:\s+(\d+)\sallocs/op)?] *)
Definition regexBenchmark : Pattern :=
  MustCompile
    (Seq [ Bol;
           Group 1 (Cat (Lit "Benchmark") (Plus (Class notBlankOrDash)));
           Alt (Seq [Lit "-"; Plus (Class digit); Plus (Class space)])
               (Plus (Class space));
           Group 2 (Plus (Class digit));
           Plus (Class space);
           Group 3 (Alt (Plus (Class digit)) decimal);
           Class space; Lit "ns/op";
           Opt (Seq [Plus (Class space); Group 4 (Plus (Class digit));
                     Class space; Lit "B/op"]);
           Opt (Seq [Plus (Class space); Group 5 (Plus (Class digit));
                     Class space; Lit "allocs/op"]) ])
    5.

(** Any number of groups of four blanks, a tab, and the rest of the line as
    the second group. *)
Definition regexOutput : Pattern :=
  MustCompile
    (Seq [Star (Group 1 (Lit "    ")); Class tab; Group 2 (Star (Class anychar))])
    2.

(** [^(PASS|FAIL|SKIP)$] *)
Definition regexSummary : Pattern :=
  MustCompile
    (Seq [Bol; Group 1 (Alt (Lit "PASS") (Alt (Lit "FAIL") (Lit "SKIP"))); Eol])
    1.

Section Helpers.
Context {lib : GoLib}.

(** Lines 238-246. *)
Definition parseNanoseconds (t : string) : Z :=
  if String.eqb t "" then 0
  else match time_ParseDuration (t +:+ "ns") with
       | Some d => d
       | None => 0   (* the error is ignored *)
       end.

(** Lines 193-227.  [suites] is a map that has been made (an entry cannot
    be assigned in a nil map); it is updated in place and returned, so the
    result is the new content of the map and of the memory. *)
Definition parseLine (t : string) (suites : gmap string (gmap string ptr))
    (h : list Test) : gmap string (gmap string ptr) * list Test :=
  if String.eqb t "" then (suites, h)
  else
    match json_Unmarshal t with
    | Some info =>
        match suites !! Info_Suite info with
        | None =>
            let '(h', t) :=
              alloc h (appendOutput (newTest (Info_Test info)) (Info_Msg info)) in
            (<[Info_Suite info := {[Info_Test info := t]}]> suites, h')
        | Some test =>
            match test !! Info_Test info with
            | Some t => (suites, store h t (appendOutput (load h t) (Info_Msg info)))
            | None =>
                let '(h', t) :=
                  alloc h (appendOutput (newTest (Info_Test info)) (Info_Msg info)) in
                (<[Info_Suite info := <[Info_Test info := t]> test]> suites, h')
            end
        end
    | None => (suites, h)   (* random output which is not of json *)
    end.

(** [parseLine] on each line in turn. *)
Definition parseLines (lines : list string)
    (start : gmap string (gmap string ptr) * list Test)
    : gmap string (gmap string ptr) * list Test :=
  fold_left (fun st l => parseLine l st.1 st.2) lines start.

(** The messages of the lines that decode to a record of [suite] and
    [test], in the order of the lines. *)
Definition recordsFor (suite test : string) (lines : list string) : list string :=
  flat_map (fun l =>
              if String.eqb l "" then []
              else match json_Unmarshal l with
                   | Some info =>
                       if String.eqb (Info_Suite info) suite
                          && String.eqb (Info_Test info) test
                       then [Info_Msg info] else []
                   | None => []
                   end)
           lines.

End Helpers.

(** Lines 248-255.  [n] is [i + 1] for the index [i] of the loop, which
    runs from the last element down to the first. *)
Fixpoint findTestFrom (h : list Test) (tests : list ptr) (name : string)
    (n : nat) : option ptr :=
  match n with
  | O => None
  | S i =>
      match tests !! i with
      | Some t =>
          if String.eqb (Test_Name (load h t)) name then Some t
          else findTestFrom h tests name i
      | None => None
      end
  end.

Definition findTest (h : list Test) (tests : list ptr) (name : string)
    : option ptr :=
  findTestFrom h tests name (length tests).

(** ** Vocabulary of the further properties *)

(** The test that the buffer files under a suite and a test name. *)
Definition filed (ss : gmap string (gmap string ptr)) (suite test : string)
    : option ptr :=
  ss !! suite ≫= (fun testmap => testmap !! test).

(** No test is filed twice, and no suite of the buffer is without tests. *)
Record tidy (ss : gmap string (gmap string ptr)) : Prop := mkTidy {
  tidy_inj : forall suite1 test1 suite2 test2 p,
    filed ss suite1 test1 = Some p -> filed ss suite2 test2 = Some p ->
    suite1 = suite2 /\ test1 = test2;
  tidy_nonempty : forall suite testmap, ss !! suite = Some testmap -> testmap <> ∅
}.

(** The names of the tests at the addresses [tests]. *)
Definition names (h : list Test) (tests : list ptr) : list string :=
  map (fun p => Test_Name (load h p)) tests.

(** What holds of every package of the report. *)
Record sound_report (s : State) : Prop := mkSoundReport {
  sr_nodup : NoDup (allTests (report s));
  sr_names : forall pkg, pkg ∈ Packages (report s) ->
    NoDup (names (heap s) (Package_Tests pkg));
  sr_tests : forall pkg, pkg ∈ Packages (report s) -> Package_Tests pkg <> [];
  sr_duration : forall pkg, pkg ∈ Packages (report s) ->
    Package_Duration pkg = wrap64 (sumZ (durations (heap s) (Package_Tests pkg)))
    /\ Package_Time pkg = Z.quot (Package_Duration pkg) Millisecond
}.

(** What [Parse] leaves of a test as it was created. *)
Definition as_created (t : Test) : Prop :=
  Test_Output t <> [] /\ Test_SubtestIndent t = "" /\ Test_Time t = 0.

(** The memory [h'] continues the memory [h]: every test is still there
    under its name, and its three sequences of lines have only grown at the
    end. *)
Definition continues (h h' : list Test) : Prop :=
  (length h <= length h')%nat /\
  forall p, (p < length h)%nat ->
    Test_Name (load h' p) = Test_Name (load h p) /\
    Test_Output (load h p) `prefix_of` Test_Output (load h' p) /\
    Test_Failure (load h p) `prefix_of` Test_Failure (load h' p) /\
    Test_SkipMsg (load h p) `prefix_of` Test_SkipMsg (load h' p).

(** The text has a slash. *)
Definition hasSlash (s : string) : Prop := In path.slash (list_ascii_of_string s).

(** The buffer and the memory hold what [lines] recorded: each filed test
    is as its records made it, and nothing is filed that no line recorded. *)
Definition accumulated {lib : GoLib} (lines : list string)
    (st : gmap string (gmap string ptr) * list Test) : Prop :=
  forall suite test,
    match filed st.1 suite test with
    | Some p =>
        st.2 !! p = Some (mkTest test 0 PASS (recordsFor suite test lines) [] [] "" 0)
        /\ recordsFor suite test lines <> []
    | None => recordsFor suite test lines = []
    end.

(** A stream of two packages: a failed test with a line of detail, then a
    passed test and a test recorded under the name of a subtest. *)
Definition twoPackages : Reader :=
  mkReader [recordLine "pkgA" "TestFoo" "hello";
            "--- FAIL: TestFoo (0.02s)";
            "assertion failed at line 5";
            "FAIL pkgA 0.020s";
            recordLine "pkgB" "TestBar" "x";
            recordLine "pkgB" "TestBaz/sub" "y";
            "--- PASS: TestBar (0.01s)";
            "--- FAIL: TestBaz/sub (0.03s)";
            "ok pkgB 0.010s"] io_EOF.

(** The report and the memory that [Parse] returns for it. *)
Definition twoPackagesReport : Report :=
  Eval vm_compute in
    match Parse (lib := refLib) canonical twoPackages "" with
    | (Some rep, _, _) => rep
    | _ => mkReport []
    end.

Definition twoPackagesMemory : list Test :=
  Eval vm_compute in (Parse (lib := refLib) canonical twoPackages "").2.

(** Its two packages, and its lines package by package. *)
Definition twoPackagesA : Package := mkPackage "pkgA" 20000000 [0%nat] [] "" 20.
Definition twoPackagesB : Package :=
  mkPackage "pkgB" 10000000 [2%nat; 1%nat] [] "" 10.
Definition linesA : list string := take 4 (reader_lines twoPackages).
Definition linesB : list string := drop 4 (reader_lines twoPackages).

(** ** The models at work *)

Example regexStatus_plain :
  FindStringSubmatch regexStatus "--- PASS: TestFoo (0.01s)"
  = ["--- PASS: TestFoo (0.01s)"; "PASS"; "TestFoo"; "0.01"].
Proof. vm_compute. reflexivity. Qed.

Example regexStatus_indented_subtest :
  FindStringSubmatch regexStatus "    --- SKIP: TestFoo/sub case (1.50 seconds)"
  = ["--- SKIP: TestFoo/sub case (1.50 seconds)"; "SKIP"; "TestFoo/sub case"; "1.50"].
Proof. vm_compute. reflexivity. Qed.

Example regexStatus_greedy_name :
  FindStringSubmatch regexStatus "--- FAIL: A (0.1s) B (2.0s) tail"
  = ["--- FAIL: A (0.1s) B (2.0s)"; "FAIL"; "A (0.1s) B"; "2.0"].
Proof. vm_compute. reflexivity. Qed.

Example regexStatus_no_match :
  FindStringSubmatch regexStatus "--- PASS: TestFoo (1s)" = [].
Proof. vm_compute. reflexivity. Qed.

Example regexResult_ok :
  FindStringSubmatch regexResult "ok   pkgA 0.010s"
  = ["ok   pkgA 0.010s"; "ok"; "pkgA"; "0.010"; ""; ""].
Proof. vm_compute. reflexivity. Qed.

Example regexResult_cached :
  FindStringSubmatch regexResult "ok pkgA (cached)"
  = ["ok pkgA (cached)"; "ok"; "pkgA"; ""; ""; ""].
Proof. vm_compute. reflexivity. Qed.

Example regexResult_build_failed :
  FindStringSubmatch regexResult "FAIL pkgA [build failed]"
  = ["FAIL pkgA [build failed]"; "FAIL"; "pkgA"; ""; "[build failed]"; ""].
Proof. vm_compute. reflexivity. Qed.

Example regexResult_coverage :
  FindStringSubmatch regexResult "ok pkgA 0.5s coverage: 87.5% of statements"
  = ["ok pkgA 0.5s coverage: 87.5% of statements"; "ok"; "pkgA"; "0.5"; ""; "87.5"].
Proof. vm_compute. reflexivity. Qed.

Example regexResult_anchored :
  FindStringSubmatch regexResult " ok pkgA 0.5s" = []
  /\ FindStringSubmatch regexResult "ok pkgA 0.5s." = [].
Proof. vm_compute. split; reflexivity. Qed.

Example Base_examples :
  path.Base "TestFoo/sub" = "sub" /\ path.Base "TestFoo" = "TestFoo"
  /\ path.Base "a/b//" = "b" /\ path.Base "///" = "/" /\ path.Base "" = ".".
Proof. vm_compute. repeat split. Qed.

Example Unmarshal_record :
  json.Unmarshal (recordLine "pkgA" "TestFoo" "hello\n")
  = Some (mkInfo "pkgA" "TestFoo" ("hello" +:+ newline)).
Proof. vm_compute. reflexivity. Qed.

Example Unmarshal_tolerant :
  json.Unmarshal "{}" = Some (mkInfo "" "" "")
  /\ json.Unmarshal "null" = Some (mkInfo "" "" "")
  /\ json.Unmarshal ("{" +:+ quoted "suite" +:+ ":" +:+ quoted "a" +:+ ","
                     +:+ quoted "Extra" +:+ ":[1,{}]}")
     = Some (mkInfo "a" "" "").
Proof. vm_compute. repeat split. Qed.

Example Unmarshal_errors :
  json.Unmarshal "assertion failed at line 5" = None
  /\ json.Unmarshal "[]" = None /\ json.Unmarshal "12" = None
  /\ json.Unmarshal ("{" +:+ quoted "Suite" +:+ ":1}") = None
  /\ json.Unmarshal "{} trailing" = None.
Proof. vm_compute. repeat split. Qed.

Example ParseDuration_examples :
  time.ParseDuration "0.01s" = Some 10000000
  /\ time.ParseDuration "5000000000.0s" = Some 5000000000000000000
  /\ time.ParseDuration "9223372036.854775807s" = Some (2 ^ 63 - 1)
  /\ time.ParseDuration "9223372036.854775808s" = None
  /\ time.ParseDuration "99999999999.0s" = None.
Proof. vm_compute. repeat split. Qed.

(** The scenarios of the specification, run with the canonical order. *)

Example scenario_pass :
  Parse (lib := refLib) canonical
    (mkReader [recordLine "pkgA" "TestFoo" "hello\n"; "--- PASS: TestFoo (0.01s)";
               "ok   pkgA 0.010s"] io_EOF) ""
  = (Some (mkReport [mkPackage "pkgA" 10000000 [0%nat] [] "" 10]), None,
     [mkTest "TestFoo" 10000000 PASS ["hello" +:+ newline] [] [] "" 0]).
Proof. vm_compute. reflexivity. Qed.

Example scenario_fail :
  Parse (lib := refLib) canonical
    (mkReader [recordLine "pkgA" "TestFoo" "hello\n"; "--- FAIL: TestFoo (0.02s)";
               "assertion failed at line 5"; "FAIL pkgA 0.020s"] io_EOF) ""
  = (Some (mkReport [mkPackage "pkgA" 20000000 [0%nat] [] "" 20]), None,
     [mkTest "TestFoo" 20000000 FAIL ["hello" +:+ newline]
             ["assertion failed at line 5"] [] "" 0]).
Proof. vm_compute. reflexivity. Qed.

Example scenario_no_status :
  Parse (lib := refLib) canonical
    (mkReader [recordLine "pkgA" "TestBar" "x"; "ok pkgA (cached)"] io_EOF) ""
  = (Some (mkReport [mkPackage "pkgA" 0 [0%nat] [] "" 0]), None,
     [mkTest "TestBar" 0 PASS ["x"] [] [] "" 0]).
Proof. vm_compute. reflexivity. Qed.

Example scenario_unclosed :
  (Parse (lib := refLib) canonical
     (mkReader [recordLine "pkgX" "TestBar" "x"] io_EOF) "").1
  = (Some (mkReport []), None).
Proof. vm_compute. reflexivity. Qed.

Example scenario_failures :
  Failures twoFailures.1 twoFailures.2 = Some 2.
Proof. vm_compute. reflexivity. Qed.

(** ** Arithmetic of durations *)

Lemma wrap64_int64 z : int64 (wrap64 z).
Proof. unfold int64, wrap64. pose proof (Z.mod_pos_bound (z + 2 ^ 63) (2 ^ 64)). lia. Qed.

Lemma wrap64_id z : int64 z -> wrap64 z = z.
Proof. unfold int64, wrap64. intros H. rewrite Z.mod_small; lia. Qed.

Lemma wrap64_add_l a b : wrap64 (wrap64 a + b) = wrap64 (a + b).
Proof.
  unfold wrap64.
  replace (a + 2 ^ 63) with (a + 2 ^ 63 + 0) at 1 by lia.
  f_equal.
  replace ((a + 2 ^ 63 + 0) mod 2 ^ 64 - 2 ^ 63 + b + 2 ^ 63)
    with ((a + 2 ^ 63) mod 2 ^ 64 + b) by (rewrite Z.add_0_r; lia).
  rewrite Zplus_mod_idemp_l. f_equal. lia.
Qed.

Lemma quot_int64 z : int64 z -> int64 (Z.quot z Millisecond).
Proof.
  unfold int64, Millisecond. intros H.
  destruct (Z.le_gt_cases 0 z).
  - pose proof (Z.quot_pos z 1000000). pose proof (Z.quot_le_upper_bound z 1000000 z).
    lia.
  - pose proof (Z.quot_opp_l z 1000000).
    pose proof (Z.quot_pos (- z) 1000000).
    pose proof (Z.quot_le_upper_bound (- z) 1000000 (- z)). lia.
Qed.

(** ** The flush of one suite *)

Section Flush.
Context {lib : GoLib}.

Lemma flush_fold (h : list Test) (entries : list (string * ptr)) :
  forall (ft : list ptr) (st : Z),
    let r := fold_left (fun (acc : list ptr * Z) (kv : string * ptr) =>
                          (acc.1 ++ [kv.2],
                           wrap64 (acc.2 + Test_Duration (load h kv.2))))
                       entries (ft, st) in
    r.1 = ft ++ entries.*2 /\
    wrap64 r.2 = wrap64 (st + sumZ (durations h entries.*2)).
Proof.
  induction entries as [|[k p] entries IH]; intros ft st; simpl.
  - split; [by rewrite app_nil_r | f_equal; lia].
  - destruct (IH (ft ++ [p]) (wrap64 (st + Test_Duration (load h p)))) as [H1 H2].
    simpl in *. split.
    + rewrite H1, <- app_assoc. done.
    + rewrite H2, wrap64_add_l. f_equal. unfold sumZ, durations. simpl.
      symmetry. apply Z.add_assoc.
Qed.

Lemma flush_fold_int64 (h : list Test) (entries : list (string * ptr)) :
  forall (ft : list ptr) (st : Z), int64 st ->
    int64 (fold_left (fun (acc : list ptr * Z) (kv : string * ptr) =>
                        (acc.1 ++ [kv.2],
                         wrap64 (acc.2 + Test_Duration (load h kv.2))))
                     entries (ft, st)).2.
Proof.
  induction entries as [|[k p] entries IH]; intros ft st Hst; simpl; [done|].
  apply IH, wrap64_int64.
Qed.

Lemma flushSuite_Name ro h suite testmap :
  Package_Name (flushSuite ro h suite testmap) = suite.
Proof. unfold flushSuite. by destruct (fold_left _ _ _). Qed.

Lemma flushSuite_Tests ro h suite testmap :
  Package_Tests (flushSuite ro h suite testmap) = (rangeTests ro suite testmap).*2.
Proof.
  unfold flushSuite.
  pose proof (flush_fold h (rangeTests ro suite testmap) [] 0) as [H _].
  destruct (fold_left _ _ _). simpl in *. done.
Qed.

Lemma flushSuite_Duration ro h suite testmap :
  Package_Duration (flushSuite ro h suite testmap)
  = wrap64 (sumZ (durations h (Package_Tests (flushSuite ro h suite testmap)))).
Proof.
  rewrite flushSuite_Tests. unfold flushSuite.
  pose proof (flush_fold h (rangeTests ro suite testmap) [] 0) as [_ H].
  pose proof (flush_fold_int64 h (rangeTests ro suite testmap) [] 0) as Hr.
  destruct (fold_left _ _ _) as [ft st]. cbn [fst snd Package_Duration] in *.
  rewrite Z.add_0_l in H. rewrite <- H. symmetry.
  apply wrap64_id, Hr. unfold int64. lia.
Qed.

Lemma flushSuite_Time ro h suite testmap :
  Package_Time (flushSuite ro h suite testmap)
  = Z.quot (Package_Duration (flushSuite ro h suite testmap)) Millisecond.
Proof.
  pose proof (flushSuite_Duration ro h suite testmap) as HD.
  unfold flushSuite in *. destruct (fold_left _ _ _) as [ft st]. simpl in *.
  unfold int. apply wrap64_id, quot_int64. rewrite HD. apply wrap64_int64.
Qed.

Lemma flushSuite_rest ro h suite testmap :
  Package_Benchmarks (flushSuite ro h suite testmap) = [] /\
  Package_CoveragePct (flushSuite ro h suite testmap) = "".
Proof. unfold flushSuite. by destruct (fold_left _ _ _). Qed.

Lemma flushSuite_Tests_perm ro h suite testmap :
  Package_Tests (flushSuite ro h suite testmap) ≡ₚ (map_to_list testmap).*2.
Proof. rewrite flushSuite_Tests. by rewrite rangeTests_perm. Qed.

Lemma flushSuite_elem ro h suite testmap p :
  p ∈ Package_Tests (flushSuite ro h suite testmap)
  <-> exists name, testmap !! name = Some p.
Proof.
  rewrite flushSuite_Tests_perm, list_elem_of_fmap. split.
  - intros [[k q] [-> Hin]]. exists k. by apply elem_of_map_to_list in Hin.
  - intros [k Hk]. exists (k, p). split; [done|]. by apply elem_of_map_to_list.
Qed.

(** ** The search of a status line *)

Lemma findInTestmap_spec (testmap : gmap string ptr) entries curTest :
  entries ≡ₚ map_to_list testmap ->
  findInTestmap entries curTest = testmap !! curTest.
Proof.
  intros Hp.
  assert (Hnd : NoDup entries.*1).
  { rewrite Hp. apply NoDup_fst_map_to_list. }
  assert (Hin : forall k p, (k, p) ∈ entries <-> testmap !! k = Some p).
  { intros k p. rewrite Hp. apply elem_of_map_to_list. }
  clear Hp. revert testmap Hin. induction entries as [|[k p] entries IH];
    intros testmap Hin; simpl.
  - destruct (testmap !! curTest) as [q|] eqn:E; [|done].
    apply Hin in E. by apply elem_of_nil in E.
  - destruct (String.eqb_spec k curTest) as [->|Hne].
    + symmetry. apply Hin. left.
    + inversion Hnd as [|? ? Hnotin Hnd']; subst.
      rewrite (IH Hnd' (delete k testmap)).
      * by rewrite lookup_delete_ne.
      * intros k' p'. rewrite lookup_delete_Some, <- Hin. split.
        -- intros H. split; [|by right]. intros ->. apply Hnotin.
           apply list_elem_of_fmap. by exists (k', p').
        -- intros [Hk H]. apply elem_of_cons in H as [H|H]; [congruence|done].
Qed.

Lemma findTestdata_Some ro (ss : gmap string (gmap string ptr)) order curTest p :
  (forall e, e ∈ order -> ss !! e.1 = Some e.2) ->
  findTestdata ro order curTest = Some p ->
  exists suite testmap, ss !! suite = Some testmap /\ testmap !! curTest = Some p.
Proof.
  induction order as [|[suite testmap] order IH]; intros Hin; simpl; [done|].
  rewrite (findInTestmap_spec testmap) by apply rangeTests_perm.
  destruct (testmap !! curTest) as [q|] eqn:E.
  - intros [= ->]. exists suite, testmap. split; [|done].
    apply (Hin (suite, testmap)). left.
  - apply IH. intros e He. apply Hin. by right.
Qed.

Lemma findTestdata_None ro order curTest :
  findTestdata ro order curTest = None ->
  forall e, e ∈ order -> e.2 !! curTest = None.
Proof.
  induction order as [|[suite testmap] order IH]; simpl; intros H e He.
  - by apply elem_of_nil in He.
  - rewrite (findInTestmap_spec testmap) in H by apply rangeTests_perm.
    destruct (testmap !! curTest) as [q|] eqn:E; [done|].
    apply elem_of_cons in He as [->|He]; [done|]. by apply IH.
Qed.

Lemma rangeSuites_elem ro (ss : gmap string (gmap string ptr)) suite testmap :
  (suite, testmap) ∈ rangeSuites ro ss <-> ss !! suite = Some testmap.
Proof. rewrite rangeSuites_perm. apply elem_of_map_to_list. Qed.

(** The search finds a test filed under [curTest] in some suite, or there
    is none in any suite. *)
Lemma findTestdata_spec ro (ss : gmap string (gmap string ptr)) curTest :
  match findTestdata ro (rangeSuites ro ss) curTest with
  | Some p => exists suite testmap,
      ss !! suite = Some testmap /\ testmap !! curTest = Some p
  | None => forall suite testmap,
      ss !! suite = Some testmap -> testmap !! curTest = None
  end.
Proof.
  destruct (findTestdata _ _ _) as [p|] eqn:E.
  - eapply findTestdata_Some; [|done].
    intros [su tm] He. by apply rangeSuites_elem in He.
  - intros suite testmap H.
    apply (findTestdata_None _ _ _ E (suite, testmap)). by apply rangeSuites_elem.
Qed.

End Flush.

(** ** Memory *)

Lemma length_store h p t : length (store h p t) = length h.
Proof. apply length_insert. Qed.

Lemma load_store_eq h p t : (p < length h)%nat -> load (store h p t) p = t.
Proof. intros H. unfold load, store. by rewrite list_lookup_insert_eq. Qed.

Lemma load_store_ne h p q t : p <> q -> load (store h p t) q = load h q.
Proof. intros H. unfold load, store. by rewrite list_lookup_insert_ne. Qed.

Lemma load_alloc_new h t : load (h ++ [t]) (length h) = t.
Proof. unfold load. by rewrite lookup_app_r, Nat.sub_diag. Qed.

Lemma load_alloc_old h t p : (p < length h)%nat -> load (h ++ [t]) p = load h p.
Proof. intros H. unfold load. by rewrite lookup_app_l. Qed.

Lemma lookup_load (h : list Test) p : (p < length h)%nat -> h !! p = Some (load h p).
Proof.
  intros H. unfold load. destruct (h !! p) eqn:E; [done|].
  apply lookup_ge_None in E. lia.
Qed.

(** ** The cases of one step *)

Section Step.
Context {lib : GoLib}.

Lemma step_cases ro s line : StepCase ro s line (step ro s line).
Proof.
  unfold step.
  destruct (Nat.eqb (length (FindStringSubmatch regexResult line)) 6) eqn:ER.
  { by apply CaseResult. }
  destruct (Nat.eqb (length (FindStringSubmatch regexStatus line)) 4) eqn:ES.
  { assert (HS : isStatusLine line = true).
    { unfold isStatusLine, isResultLine. by rewrite ER, ES. }
    pose proof (findTestdata_spec ro (suites s)
                  (path.Base (nth 2 (FindStringSubmatch regexStatus line) ""))) as H.
    destruct (findTestdata _ _ _) as [p|].
    - destruct H as (suite & testmap & H1 & H2). by eapply CaseStatusHit.
    - by apply CaseStatusMiss. }
  destruct (json_Unmarshal line) as [info|] eqn:EJ.
  { assert (HR : isRecordLine line = true).
    { unfold isRecordLine, isResultLine. by rewrite ER, ES, EJ. }
    destruct (suites s !! Info_Suite info) as [testmap|] eqn:E1.
    - destruct (testmap !! Info_Test info) as [p|] eqn:E2.
      + by eapply CaseRecordAppend.
      + by eapply CaseRecordNewTest.
    - by eapply CaseRecordNewSuite. }
  assert (HF : isFreeText line = true).
  { unfold isFreeText, isResultLine. by rewrite ER, ES, EJ. }
  destruct (cur s) as [c|] eqn:EC.
  - destruct (Test_Result (load (heap s) c)) eqn:ET.
    + destruct s; simpl in *. apply CaseFreeDrop; [done|]. right. eauto.
    + rewrite <- EC. by eapply CaseFreeFail.
    + rewrite <- EC. by eapply CaseFreeSkip.
  - destruct s; simpl in *. apply CaseFreeDrop; [done|]. by left.
Qed.

(** The four rules exclude one another. *)
Lemma rules_exclusive line :
  (isResultLine line = true -> isStatusLine line = false
                               /\ isRecordLine line = false
                               /\ isFreeText line = false) /\
  (isStatusLine line = true -> isRecordLine line = false
                               /\ isFreeText line = false) /\
  (isRecordLine line = true -> isFreeText line = false).
Proof.
  unfold isStatusLine, isRecordLine, isFreeText.
  destruct (isResultLine line); simpl; [by auto|].
  destruct (Nat.eqb _ 4); simpl; [by auto|].
  split; [done|]. split; [done|].
  intros H%bool_decide_eq_true. apply bool_decide_eq_false.
  destruct H as [x Hx]. by rewrite Hx.
Qed.

Lemma setStatus_Name t r d : Test_Name (setStatus t r d) = Test_Name t.
Proof. done. Qed.

(** ** The invariant *)

Lemma wf_init : wf init.
Proof.
  split; simpl.
  - intros suite testmap name p H. by rewrite lookup_empty in H.
  - done.
  - intros pkg p H. by apply elem_of_nil in H.
  - intros pkg p suite testmap name H. by apply elem_of_nil in H.
Qed.

(** Overwriting a test by one of the same name keeps the invariant. *)
Lemma wf_store r ss c c' h p t :
  wf (mkState r ss c h) ->
  (forall q, c' = Some q -> (q < length h)%nat) ->
  Test_Name t = Test_Name (load h p) ->
  wf (mkState r ss c' (store h p t)).
Proof.
  intros [W1 W2 W3 W4] Hc Hn. split; simpl in *.
  - intros suite testmap name q H1 H2. rewrite length_store.
    destruct (W1 _ _ _ _ H1 H2) as [Hq Hname]. split; [done|].
    destruct (decide (p = q)) as [->|Hne].
    + rewrite load_store_eq by done. congruence.
    + by rewrite load_store_ne.
  - intros q Hq. rewrite length_store. by apply Hc.
  - intros pkg q H1 H2. rewrite length_store. by eapply W3.
  - done.
Qed.

Lemma wf_alloc r ss c h suite testmap t :
  wf (mkState r ss c h) ->
  (testmap = ∅ /\ ss !! suite = None \/ ss !! suite = Some testmap) ->
  wf (mkState r (<[suite := <[Test_Name t := length h]> testmap]> ss) c (h ++ [t])).
Proof.
  intros [W1 W2 W3 W4] Hs. split; simpl in *.
  - intros su tm name q H1 H2. rewrite length_app. simpl.
    assert (Hold : forall tm0, ss !! su = Some tm0 -> tm0 !! name = Some q ->
              (q < length h + 1)%nat /\ Test_Name (load (h ++ [t]) q) = name).
    { intros tm0 Ha Hb. destruct (W1 _ _ _ _ Ha Hb) as [Hq Hn].
      split; [lia|]. by rewrite load_alloc_old. }
    destruct (decide (suite = su)) as [->|Hne].
    + rewrite lookup_insert_eq in H1. injection H1 as <-.
      destruct (decide (Test_Name t = name)) as [<-|Hne].
      * rewrite lookup_insert_eq in H2. injection H2 as <-.
        split; [lia|]. by rewrite load_alloc_new.
      * rewrite lookup_insert_ne in H2 by done.
        destruct Hs as [[-> _]|Hs]; [by rewrite lookup_empty in H2|].
        by eapply Hold.
    + rewrite lookup_insert_ne in H1 by done. by eapply Hold.
  - intros q Hq. rewrite length_app. simpl. apply W2 in Hq. lia.
  - intros pkg q H1 H2. rewrite length_app. simpl.
    pose proof (W3 _ _ H1 H2). lia.
  - intros pkg q su tm name H1 H2 H3 H4.
    pose proof (W3 _ _ H1 H2) as Hq.
    destruct (decide (suite = su)) as [->|Hne].
    + rewrite lookup_insert_eq in H3. injection H3 as <-.
      destruct (decide (Test_Name t = name)) as [<-|Hne].
      * rewrite lookup_insert_eq in H4. injection H4 as <-. lia.
      * rewrite lookup_insert_ne in H4 by done.
        destruct Hs as [[-> _]|Hs]; [by rewrite lookup_empty in H4|].
        by eapply W4.
    + rewrite lookup_insert_ne in H3 by done. by eapply W4.
Qed.

Lemma step_wf ro s line : wf s -> wf (step ro s line).
Proof.
  intros W. destruct (step_cases ro s line).
  - destruct W as [W1 W2 W3 W4]. split; simpl.
    + intros *. by rewrite lookup_empty.
    + done.
    + intros pkg p Hpkg Hp. apply elem_of_app in Hpkg as [Hpkg|Hpkg].
      * by eapply W3.
      * apply list_elem_of_fmap in Hpkg as [[su tm] [-> Hin]].
        apply rangeSuites_elem in Hin. simpl in Hp.
        apply flushSuite_elem in Hp as [name Hname].
        by destruct (W1 _ _ _ _ Hin Hname).
    + intros *. by rewrite lookup_empty.
  - destruct W. split; simpl; try done.
  - destruct s as [r ss c h]. simpl in *. apply (wf_store r ss c); [done| |done].
    intros q [= <-]. by destruct (wf_suites _ W _ _ _ _ H0 H1).
  - destruct s as [r ss c h]. simpl in *. apply (wf_store r ss c); [done| |done].
    intros q Hq. by apply (wf_cur _ W).
  - destruct s as [r ss c h]. simpl in *.
    apply (wf_alloc r ss c h _ testmap
             (appendOutput (newTest (Info_Test info)) (Info_Msg info))); auto.
  - destruct s as [r ss c h]. simpl in *.
    apply (wf_alloc r ss c h _ ∅
             (appendOutput (newTest (Info_Test info)) (Info_Msg info))); auto.
  - destruct s as [r ss c0 h]. simpl in *. apply (wf_store r ss c0); [done| |done].
    intros q Hq. by apply (wf_cur _ W).
  - destruct s as [r ss c0 h]. simpl in *. apply (wf_store r ss c0); [done| |done].
    intros q Hq. by apply (wf_cur _ W).
  - done.
Qed.

Lemma runLines_wf ros lines : forall n s, wf s -> wf (runLines ros n s lines).
Proof.
  induction lines as [|l lines IH]; intros n s W; simpl; [done|].
  by apply IH, step_wf.
Qed.

Lemma runLines_app ros l1 l2 : forall n s,
  runLines ros n s (l1 ++ l2)
  = runLines ros (n + length l1) (runLines ros n s l1) l2.
Proof.
  induction l1 as [|l l1 IH]; intros n s; simpl.
  - by rewrite Nat.add_0_r.
  - rewrite IH. f_equal. lia.
Qed.

Lemma parseLoop_runLines ros lines err : forall n s,
  parseLoop ros n s lines err
  = match err with
    | io_EOF => inl (runLines ros n s lines)
    | _ => inr err
    end.
Proof.
  induction lines as [|l lines IH]; intros n s; simpl; [done|]. apply IH.
Qed.

End Step.

(** ** Submatches *)

(** Matching leaves the submatches of foreign groups alone. *)
Lemma run_caps_frame r : forall st st' n,
  In st' (run r st) -> ~ In n (groups r) -> caps st' n = caps st n.
Proof.
  induction r as [|p|r1 IH1 r2 IH2|r1 IH1 r2 IH2|r1 IH1|m r1 IH1| |];
    intros st st' n Hin Hn; simpl in *.
  - by destruct Hin as [<-|[]].
  - destruct (rest st) as [|c l]; [done|]. destruct (p c); [|done].
    by destruct Hin as [<-|[]].
  - apply in_flat_map in Hin as (st1 & H1 & H2).
    rewrite (IH2 st1 st' n H2), (IH1 st st1 n H1); [done|..];
      intros H; apply Hn, in_app_iff; auto.
  - apply in_app_iff in Hin as [H|H]; [apply IH1|apply IH2]; try done;
      intros H'; apply Hn, in_app_iff; auto.
  - remember (length (rest st)) as fuel eqn:Ef. clear Ef.
    revert st st' Hin. induction fuel as [|fuel IHf]; intros st st' Hin.
    + by destruct Hin as [<-|[]].
    + apply in_app_iff in Hin as [Hin|[<-|[]]]; [|done].
      apply in_flat_map in Hin as (st1 & H1 & H2).
      destruct (Nat.ltb _ _); [|done].
      rewrite (IHf st1 st' H2). by apply IH1.
  - apply in_map_iff in Hin as (st1 & <- & H1). simpl. unfold setcap.
    destruct (Nat.eqb_spec n m) as [->|Hne]; [by destruct Hn; left|].
    apply IH1; [done|]. intros H. apply Hn. by right.
  - destruct (Nat.eqb (pos st) 0); [|done]. by destruct Hin as [<-|[]].
  - destruct (rest st); [|done]. by destruct Hin as [<-|[]].
Qed.

(** A literal consumes exactly its text. *)
Lemma run_LitL w : forall st st',
  In st' (run (LitL w) st) ->
  rest st = w ++ rest st' /\ pos st' = (pos st + length w)%nat.
Proof.
  induction w as [|c w IH]; intros st st' Hin; simpl in *.
  - destruct Hin as [<-|[]]. split; [done|lia].
  - apply in_flat_map in Hin as (st1 & H1 & H2).
    unfold Byte in H1. simpl in H1.
    destruct (rest st) as [|d l] eqn:E; [done|].
    destruct (Ascii.eqb_spec c d) as [->|Hne]; [|done].
    destruct H1 as [<-|[]]. apply IH in H2 as [H2 H3]. simpl in *.
    split; [by f_equal|lia].
Qed.

Lemma consumed_Lit w st st' :
  In st' (run (Lit w) st) -> consumed st st' = w.
Proof.
  intros [H1 H2]%run_LitL. unfold consumed. rewrite H1, H2.
  replace (pos st + _ - pos st)%nat with (length (list_ascii_of_string w)) by lia.
  rewrite take_app_length. apply string_of_list_ascii_of_string.
Qed.

Lemma search_In r fuel : forall st st',
  search r fuel st = Some st' ->
  exists st0, In st' (run (Group 0 r) st0) /\ caps st0 = caps st.
Proof.
  induction fuel as [|fuel IH]; intros st st' H; cbn [search] in H.
  - destruct (run (Group 0 r) st) as [|x l] eqn:E; [done|].
    injection H as <-. exists st. rewrite E. split; [by left|done].
  - destruct (run (Group 0 r) st) as [|x l] eqn:E.
    + destruct (rest st) as [|c l']; [done|].
      apply IH in H as (st0 & H1 & H2). by exists st0.
    + injection H as <-. exists st. rewrite E. split; [by left|done].
Qed.

(** The keyword captured on a status line is one of the three. *)
Lemma regexStatus_keyword line :
  length (FindStringSubmatch regexStatus line) = 4%nat ->
  let kw := nth 1 (FindStringSubmatch regexStatus line) "" in
  kw = "PASS" \/ kw = "FAIL" \/ kw = "SKIP".
Proof.
  unfold FindStringSubmatch.
  destruct (search _ _ _) as [st|] eqn:E; [|done]. intros _.
  cbn [nth map seq NumSubexp regexStatus].
  apply search_In in E as (st0 & Hin & _).
  cbn [expr regexStatus] in Hin.
  change (run (Group 0 ?r) st0)
    with (map (fun st' => mkConfig (pos st') (rest st')
                            (setcap 0 (consumed st0 st') (caps st')))
              (run r st0)) in Hin.
  apply in_map_iff in Hin as (st1 & <- & Hin). cbn [caps]. unfold setcap.
  cbn [Nat.eqb].
  cbn [Seq] in Hin.
  change (run (Cat ?a ?b) st0) with (flat_map (run b) (run a st0)) in Hin.
  apply in_flat_map in Hin as (st2 & _ & Hin).
  change (run (Cat ?a ?b) st2) with (flat_map (run b) (run a st2)) in Hin.
  apply in_flat_map in Hin as (st3 & Hg & Hin).
  rewrite !(run_caps_frame _ _ _ 1%nat Hin).
  2:{ cbn. intros H. repeat (destruct H as [H|H]; [discriminate H|]). done. }
  change (run (Group 1 ?r) st2)
    with (map (fun st' => mkConfig (pos st') (rest st')
                            (setcap 1 (consumed st2 st') (caps st')))
              (run r st2)) in Hg.
  apply in_map_iff in Hg as (st4 & <- & Hg). cbn [caps]. unfold setcap.
  cbn [Nat.eqb].
  change (run (Alt ?a ?b) st2) with (run a st2 ++ run b st2) in Hg.
  apply in_app_iff in Hg as [Hg|Hg].
  { left. by apply consumed_Lit. }
  change (run (Alt ?a ?b) st2) with (run a st2 ++ run b st2) in Hg.
  apply in_app_iff in Hg as [Hg|Hg].
  - right. left. by apply consumed_Lit.
  - right. right. by apply consumed_Lit.
Qed.

(** ** The last path segment *)

Lemma list_ascii_of_string_app a b :
  list_ascii_of_string (a +:+ b) = list_ascii_of_string a ++ list_ascii_of_string b.
Proof. induction a as [|c a IH]; simpl; [done|]. by rewrite IH. Qed.

Lemma take_while_app {A} (p : A -> bool) l1 y l2 :
  Forall (fun x => p x = true) l1 -> p y = false ->
  path.take_while p (l1 ++ y :: l2) = l1.
Proof.
  intros H Hy. induction H as [|x l1 Hx H IH]; simpl.
  - by rewrite Hy.
  - by rewrite Hx, IH.
Qed.

Lemma take_while_all {A} (p : A -> bool) l :
  Forall (fun x => p x = true) l -> path.take_while p l = l.
Proof. intros H. induction H as [|x l Hx H IH]; simpl; [done|]. by rewrite Hx, IH. Qed.

Lemma Base_segment (l : list ascii) (segment : string) :
  segment <> "" ->
  ~ In path.slash (list_ascii_of_string segment) ->
  (l = [] \/ exists l', l = path.slash :: l') ->
  (let stripped := path.drop_while path.is_slash
                     (rev (list_ascii_of_string segment) ++ l) in
   match rev (path.take_while (fun c => negb (path.is_slash c)) stripped) with
   | [] => "/"
   | _ :: _ => string_of_list_ascii
                 (rev (path.take_while (fun c => negb (path.is_slash c)) stripped))
   end) = segment.
Proof.
  intros Hne Hns Hl. cbv zeta.
  assert (Hall : Forall (fun x => negb (path.is_slash x) = true)
                   (rev (list_ascii_of_string segment))).
  { apply Forall_forall. intros c Hc%list_elem_of_In%in_rev.
    unfold path.is_slash. destruct (Ascii.eqb_spec c path.slash) as [->|]; done. }
  assert (Hd : path.drop_while path.is_slash (rev (list_ascii_of_string segment) ++ l)
               = rev (list_ascii_of_string segment) ++ l).
  { destruct (rev (list_ascii_of_string segment)) as [|c r] eqn:E.
    - apply (f_equal (@rev ascii)) in E. rewrite rev_involutive in E. simpl in E.
      destruct segment; done.
    - simpl. inversion Hall as [|? ? Hc]; subst.
      by destruct (path.is_slash c). }
  rewrite Hd.
  assert (Ht : path.take_while (fun c => negb (path.is_slash c))
                 (rev (list_ascii_of_string segment) ++ l)
               = rev (list_ascii_of_string segment)).
  { destruct Hl as [->|[l' ->]].
    - rewrite app_nil_r. by apply take_while_all.
    - apply take_while_app; [done|]. unfold path.is_slash.
      by rewrite Ascii.eqb_refl. }
  rewrite Ht, rev_involutive.
  destruct (list_ascii_of_string segment) eqn:E.
  - destruct segment; done.
  - rewrite <- E. apply string_of_list_ascii_of_string.
Qed.

(** [Base] keeps what follows the last slash. *)
Lemma Base_last_segment dir segment :
  segment <> "" ->
  ~ In path.slash (list_ascii_of_string segment) ->
  path.Base (dir +:+ "/" +:+ segment) = segment.
Proof.
  intros Hne Hns. unfold path.Base.
  destruct (String.eqb_spec (dir +:+ "/" +:+ segment) "") as [E|_].
  { destruct dir; discriminate E. }
  rewrite list_ascii_of_string_app. simpl.
  rewrite rev_app_distr. simpl. rewrite <- app_assoc. simpl.
  apply (Base_segment (path.slash :: rev (list_ascii_of_string dir))); eauto.
Qed.

(** A name without a slash is its own last segment. *)
Lemma Base_no_slash name :
  name <> "" ->
  ~ In path.slash (list_ascii_of_string name) ->
  path.Base name = name.
Proof.
  intros Hne Hns. unfold path.Base.
  destruct (String.eqb_spec name "") as [E|_]; [done|].
  pose proof (Base_segment [] name Hne Hns (or_introl eq_refl)) as H.
  by rewrite app_nil_r in H.
Qed.

(** ** Package-result lines *)

Section ResultLines.
Context {lib : GoLib}.

Lemma step_result ro s line :
  isResultLine line = true ->
  step ro s line
  = mkState (mkReport (Packages (report s) ++
                       map (fun e => flushSuite ro (heap s) e.1 e.2)
                           (rangeSuites ro (suites s))))
            ∅ (cur s) (heap s).
Proof. intros H. unfold step. unfold isResultLine in H. by rewrite H. Qed.

Lemma step_report_other ro s line :
  isResultLine line = false -> report (step ro s line) = report s.
Proof.
  intros H. destruct (step_cases ro s line); try done. congruence.
Qed.

Lemma runLines_report_other ros lines : forall n s,
  Forall (fun l => isResultLine l = false) lines ->
  report (runLines ros n s lines) = report s.
Proof.
  induction lines as [|l lines IH]; intros n s H; simpl; [done|].
  inversion H; subst. rewrite IH by done. by apply step_report_other.
Qed.

(** C1 (amended): on a package-result line the report gains one package
    per package name of the buffer and the memory is left as it is; each
    such package lists the tests filed under its name, its Duration is the
    sum of the durations of these tests in 64-bit signed arithmetic (the sum
    itself whenever that fits in 64 bits), and its Time is that Duration in
    whole milliseconds. *)
Theorem C1_flush_duration ro s line :
  isResultLine line = true ->
  exists new,
    step ro s line = mkState (mkReport (Packages (report s) ++ new)) ∅ (cur s) (heap s) /\
    Package_Name <$> new ≡ₚ (map_to_list (suites s)).*1 /\
    forall pkg, pkg ∈ new ->
      let total := sumZ (durations (heap s) (Package_Tests pkg)) in
      (exists testmap, suites s !! Package_Name pkg = Some testmap /\
                       Package_Tests pkg ≡ₚ (map_to_list testmap).*2) /\
      Package_Duration pkg = wrap64 total /\
      (int64 total -> Package_Duration pkg = total) /\
      Package_Time pkg = Z.quot (Package_Duration pkg) Millisecond.
Proof.
  intros H. eexists. split; [by apply step_result|]. split.
  - assert (E : Package_Name <$> map (fun e => flushSuite ro (heap s) e.1 e.2)
                                    (rangeSuites ro (suites s))
                = (rangeSuites ro (suites s)).*1).
    { induction (rangeSuites ro (suites s)) as [|[su tm] l IH]; simpl; [done|].
      f_equal; [apply flushSuite_Name | apply IH]. }
    by rewrite E, rangeSuites_perm.
  - intros pkg Hpkg. apply list_elem_of_fmap in Hpkg as [[su tm] [-> Hin]].
    apply rangeSuites_elem in Hin. cbn [fst snd]. cbv zeta.
    split; [|split; [|split]].
    + exists tm. rewrite flushSuite_Name. split; [done|].
      apply flushSuite_Tests_perm.
    + apply flushSuite_Duration.
    + intros Hfit. rewrite flushSuite_Duration. by apply wrap64_id.
    + apply flushSuite_Time.
Qed.

(** C2: at the end of the stream the report holds none of the tests that
    are still in the buffer, and it has no package at all when no line of
    the stream is a package-result line. *)
Theorem C2_unclosed_discarded ros lines pkgName :
  let s := runLines ros 0 init lines in
  Parse ros (mkReader lines io_EOF) pkgName = (Some (report s), None, heap s) /\
  (forall suite testmap name p pkg,
      suites s !! suite = Some testmap -> testmap !! name = Some p ->
      pkg ∈ Packages (report s) -> p ∉ Package_Tests pkg) /\
  (Forall (fun l => isResultLine l = false) lines -> Packages (report s) = []).
Proof.
  cbv zeta. split; [|split].
  - unfold Parse. simpl. by rewrite parseLoop_runLines.
  - intros suite testmap name p pkg H1 H2 H3 H4.
    pose proof (runLines_wf ros lines 0 init wf_init) as W.
    by apply (wf_sep _ W pkg p suite testmap name).
  - intros H. by rewrite runLines_report_other.
Qed.

Lemma step_plain ro s line : plain s -> plain (step ro s line).
Proof.
  intros P. destruct (step_cases ro s line); try done.
  intros pkg Hpkg. simpl in Hpkg. apply elem_of_app in Hpkg as [Hpkg|Hpkg].
  - by apply P.
  - apply list_elem_of_fmap in Hpkg as [[su tm] [-> _]].
    by destruct (flushSuite_rest ro (heap s) su tm).
Qed.

Lemma runLines_plain ros lines : forall n s, plain s -> plain (runLines ros n s lines).
Proof.
  induction lines as [|l lines IH]; intros n s P; simpl; [done|].
  by apply IH, step_plain.
Qed.

(** C7: every package of the returned report has an empty CoveragePct and
    no Benchmarks; what a package-result line does is the same for every
    such line, whatever it captures; and each package it adds is computed
    from its name in the buffer, the tests filed there and the memory. *)
Theorem C7_result_fields_unused ros r pkgName :
  (forall rep e h pkg,
      Parse ros r pkgName = (Some rep, e, h) -> pkg ∈ Packages rep ->
      Package_CoveragePct pkg = "" /\ Package_Benchmarks pkg = []) /\
  (forall ro s line1 line2,
      isResultLine line1 = true -> isResultLine line2 = true ->
      step ro s line1 = step ro s line2) /\
  (forall ro s line pkg,
      isResultLine line = true ->
      pkg ∈ Packages (report (step ro s line)) ->
      pkg ∈ Packages (report s) \/
      exists testmap, suites s !! Package_Name pkg = Some testmap /\
                      pkg = flushSuite ro (heap s) (Package_Name pkg) testmap).
Proof.
  split; [|split].
  - intros rep e h pkg HP Hpkg. unfold Parse in HP.
    rewrite parseLoop_runLines in HP. destruct (reader_err r); [|done].
    injection HP as <- <- <-.
    apply (runLines_plain ros (reader_lines r) 0 init); [|done].
    intros p Hp. by apply elem_of_nil in Hp.
  - intros ro s l1 l2 H1 H2. by rewrite !step_result.
  - intros ro s line pkg H Hpkg. rewrite step_result in Hpkg by done.
    simpl in Hpkg. apply elem_of_app in Hpkg as [Hpkg|Hpkg]; [by left|right].
    apply list_elem_of_fmap in Hpkg as [[su tm] [-> Hin]].
    apply rangeSuites_elem in Hin. exists tm. cbn [fst snd].
    by rewrite flushSuite_Name.
Qed.

(** C8: the error of Parse is non-nil exactly when the reader ends with an
    error other than io.EOF; then the report is nil and the error is the
    reader's; otherwise a report is returned, whatever the lines are. *)
Theorem C8_only_read_errors ros r pkgName :
  ((Parse ros r pkgName).1.2 <> None <-> reader_err r <> io_EOF) /\
  (reader_err r <> io_EOF ->
   Parse ros r pkgName = (None, Some (reader_err r), [])) /\
  (reader_err r = io_EOF ->
   exists rep h, Parse ros r pkgName = (Some rep, None, h)).
Proof.
  unfold Parse. rewrite parseLoop_runLines.
  destruct (reader_err r) eqn:E; simpl.
  - split; [split; intros H; by destruct H|]. split; [done|]. eauto.
  - split; [split; intros H; done|]. split; done.
Qed.

End ResultLines.

(** ** Failures *)

Lemma Failures_tests (h : list Test) (tests : list ptr) : forall (count : Z),
  (forall p, p ∈ tests -> (p < length h)%nat) ->
  0 <= count -> count + Z.of_nat (length tests) < 2 ^ 63 ->
  foldl (fun (count : option Z) (t : ptr) =>
           count ← count;
           t ← h !! t;
           Some (if decide (Test_Result t = FAIL) then int (count + 1) else count))
        (Some count) tests
  = Some (count + Z.of_nat (length (filter (fun p => Test_Result (load h p) = FAIL)
                                           tests))).
Proof.
  induction tests as [|p tests IH]; intros count Hv H0 Hb; simpl.
  - f_equal. lia.
  - rewrite (lookup_load h p) by (apply Hv; left). simpl.
    rewrite filter_cons. simpl in Hb.
    destruct (decide (Test_Result (load h p) = FAIL)) as [E|E].
    + unfold int. rewrite wrap64_id by (unfold int64; lia).
      rewrite IH; [|intros q Hq; apply Hv; by right|lia|lia].
      f_equal. simpl. lia.
    + rewrite IH; [|intros q Hq; apply Hv; by right|lia|lia]. done.
Qed.

(** C9: on a report whose test addresses are allocated (and, as in every Go
    program, fewer than 2^63 in number), Failures is the number of tests
    across all packages whose Result is FAIL; it is 0 on a report without
    packages. *)
Theorem C9_Failures_count (h : list Test) (r : Report) :
  (forall p, p ∈ allTests r -> (p < length h)%nat) ->
  Z.of_nat (length (allTests r)) < 2 ^ 63 ->
  Failures h r = Some (Z.of_nat (countFailed h r)) /\
  (Packages r = [] -> Failures h r = Some 0).
Proof.
  intros Hv Hb. split; [|intros E; unfold Failures; by rewrite E].
  unfold Failures, countFailed, allTests in *.
  change (Some 0) with (Some (Z.of_nat 0)).
  assert (G : forall pkgs (c : nat),
             (forall p, p ∈ concat (map Package_Tests pkgs) -> (p < length h)%nat) ->
             Z.of_nat c + Z.of_nat (length (concat (map Package_Tests pkgs))) < 2 ^ 63 ->
             foldl (fun (count : option Z) (p : Package) =>
                      foldl (fun (count : option Z) (t : ptr) =>
                               count ← count;
                               t ← h !! t;
                               Some (if decide (Test_Result t = FAIL)
                                     then int (count + 1) else count))
                            count (Package_Tests p))
                   (Some (Z.of_nat c)) pkgs
             = Some (Z.of_nat (c + length (filter (fun p => Test_Result (load h p) = FAIL)
                                             (concat (map Package_Tests pkgs)))))).
  { induction pkgs as [|pkg pkgs IH]; intros c Hv' Hb'; simpl in *.
    - f_equal. lia.
    - rewrite length_app in Hb'.
      rewrite Failures_tests;
        [|intros p Hp; apply Hv', elem_of_app; by left|lia|lia].
      rewrite <- Nat2Z.inj_add.
      rewrite IH; [|intros p Hp; apply Hv', elem_of_app; by right|].
      + rewrite filter_app, length_app. f_equal. lia.
      + pose proof (length_filter (fun p => Test_Result (load h p) = FAIL)
                      (Package_Tests pkg)). lia. }
  apply (G (Packages r) 0%nat); [done|lia].
Qed.

(** ** Classification *)

Section Rules.
Context {lib : GoLib}.

Lemma classify_spec line :
  (isResultLine line = true <-> classify line = RuleResult) /\
  (isStatusLine line = true <-> classify line = RuleStatus) /\
  (isRecordLine line = true <-> classify line = RuleRecord) /\
  (isFreeText line = true <-> classify line = RuleFallback).
Proof.
  unfold classify, isStatusLine, isRecordLine, isFreeText.
  destruct (isResultLine line); simpl; [by repeat split|].
  destruct (Nat.eqb _ 4); simpl; [by repeat split|].
  destruct (json_Unmarshal line) as [info|]; simpl; by repeat split.
Qed.

Lemma classify_result line : isResultLine line = true -> classify line = RuleResult.
Proof. apply classify_spec. Qed.
Lemma classify_status line : isStatusLine line = true -> classify line = RuleStatus.
Proof. apply classify_spec. Qed.
Lemma classify_record line : isRecordLine line = true -> classify line = RuleRecord.
Proof. apply classify_spec. Qed.
Lemma classify_free line : isFreeText line = true -> classify line = RuleFallback.
Proof. apply classify_spec. Qed.

Lemma not_record line : isRecordLine line = false -> classify line <> RuleRecord.
Proof.
  intros H E. apply classify_spec in E. congruence.
Qed.

Lemma not_status line : ~ isStatusLine line = true -> classify line <> RuleStatus.
Proof. intros H E. by apply H, classify_spec. Qed.

End Rules.

(** Closes a goal whose hypotheses put one line under two rules. *)
Ltac two_rules :=
  repeat match goal with
         | H : isResultLine _ = true |- _ => apply classify_result in H
         | H : isStatusLine _ = true |- _ => apply classify_status in H
         | H : isRecordLine _ = true |- _ => apply classify_record in H
         | H : isFreeText _ = true |- _ => apply classify_free in H
         | H : isRecordLine _ = false |- _ => apply not_record in H
         end;
  congruence.

Section Lines.
Context {lib : GoLib}.

(** ** Status lines *)

(** C3: on a status line the captured name is cut down to its last path
    segment and looked up in the test maps of all suites.  When no suite
    files a test under it, the current test is cleared and nothing else
    changes.  Otherwise one such test, which bears that name, gets the
    result that the keyword names and the duration parsed from the captured
    seconds, and becomes the current test. *)
Theorem C3_status_line ro s line :
  wf s ->
  isStatusLine line = true ->
  let matches := FindStringSubmatch regexStatus line in
  let keyword := nth 1 matches "" in
  let name := nth 2 matches "" in
  let seconds := nth 3 matches "" in
  let curTest := path.Base name in
  let s' := step ro s line in
  (forall dir segment,
      name = dir +:+ "/" +:+ segment -> segment <> "" ->
      ~ In path.slash (list_ascii_of_string segment) -> curTest = segment) /\
  (name <> "" -> ~ In path.slash (list_ascii_of_string name) -> curTest = name) /\
  ((forall suite testmap,
       suites s !! suite = Some testmap -> testmap !! curTest = None) /\
   s' = mkState (report s) (suites s) None (heap s)
   \/
   exists suite testmap p r,
     suites s !! suite = Some testmap /\ testmap !! curTest = Some p /\
     Test_Name (load (heap s) p) = curTest /\
     (keyword = "PASS" /\ r = PASS \/ keyword = "FAIL" /\ r = FAIL
      \/ keyword = "SKIP" /\ r = SKIP) /\
     s' = mkState (report s) (suites s) (Some p)
            (store (heap s) p
               (setStatus (load (heap s) p) r (parseSeconds seconds))) /\
     Test_Result (load (heap s') p) = r /\
     Test_Duration (load (heap s') p) = parseSeconds seconds).
Proof.
  intros W HS. cbv zeta. split; [|split].
  - intros dir segment -> Hne Hns. by apply Base_last_segment.
  - apply Base_no_slash.
  - destruct (step_cases ro s line); try two_rules.
    + left. done.
    + right. exists suite, testmap, p.
      exists (statusResult (nth 1 (FindStringSubmatch regexStatus line) "")).
      destruct (wf_suites _ W _ _ _ _ H0 H1) as [Hp Hn].
      split; [done|]. split; [done|]. split; [done|]. split.
      * assert (H4 : length (FindStringSubmatch regexStatus line) = 4%nat).
        { unfold isStatusLine in HS. apply andb_true_iff in HS as [_ HS].
          by apply Nat.eqb_eq. }
        destruct (regexStatus_keyword line H4) as [E|[E|E]]; rewrite E; auto.
      * split; [done|]. simpl. by rewrite load_store_eq.
Qed.

(** ** Free text *)

(** The state after a line that no other rule takes. *)
Lemma step_free ro s line :
  isFreeText line = true ->
  step ro s line
  = match cur s with
    | None => s
    | Some c =>
        match Test_Result (load (heap s) c) with
        | PASS => s
        | FAIL => mkState (report s) (suites s) (cur s)
                    (store (heap s) c (appendFailure (load (heap s) c) line))
        | SKIP => mkState (report s) (suites s) (cur s)
                    (store (heap s) c (appendSkipMsg (load (heap s) c) line))
        end
    end.
Proof.
  intros HF. destruct (step_cases ro s line); try two_rules.
  - by rewrite H0, H1.
  - by rewrite H0, H1.
  - destruct H0 as [->|(c & -> & ->)]; done.
Qed.

(** C4: a line that no other rule takes leaves the state as it is when
    there is no current test or the current test has result PASS; when the
    result is FAIL the line is appended to the Failure of the current test,
    when it is SKIP to its SkipMsg, and nothing else changes. *)
Theorem C4_fallback ro s line :
  isFreeText line = true ->
  let s' := step ro s line in
  (cur s = None -> s' = s) /\
  (forall c, cur s = Some c ->
     match Test_Result (load (heap s) c) with
     | PASS => s' = s
     | FAIL => s' = mkState (report s) (suites s) (cur s)
                      (store (heap s) c (appendFailure (load (heap s) c) line))
     | SKIP => s' = mkState (report s) (suites s) (cur s)
                      (store (heap s) c (appendSkipMsg (load (heap s) c) line))
     end) /\
  (forall c, cur s = Some c -> (c < length (heap s))%nat ->
     let t := load (heap s) c in
     let t' := load (heap s') c in
     (Test_Result t = FAIL ->
      Test_Failure t' = Test_Failure t ++ [line] /\ Test_SkipMsg t' = Test_SkipMsg t) /\
     (Test_Result t = SKIP ->
      Test_SkipMsg t' = Test_SkipMsg t ++ [line] /\ Test_Failure t' = Test_Failure t)) /\
  (forall q, cur s <> Some q -> load (heap s') q = load (heap s) q).
Proof.
  intros HF. cbv zeta. rewrite (step_free ro s line HF).
  split; [by intros ->|]. split; [|split].
  - intros c ->. by destruct (Test_Result (load (heap s) c)).
  - intros c -> Hc.
    destruct (Test_Result (load (heap s) c)) eqn:E; simpl;
      rewrite ?load_store_eq by done; split; intros; try done.
  - intros q Hq. destruct (cur s) as [c|]; [|done].
    destruct (Test_Result (load (heap s) c)); simpl; [done|..];
      apply load_store_ne; congruence.
Qed.

End Lines.

(** ** Record lines *)

Section Records.
Context {lib : GoLib}.

Lemma untouched_store name p s r ss c q t :
  untouched name p s ->
  Test_Name t = Test_Name (load (heap s) q) ->
  Test_Result t = Test_Result (load (heap s) q) ->
  Test_Duration t = Test_Duration (load (heap s) q) ->
  untouched name p (mkState r ss c (store (heap s) q t)).
Proof.
  intros (Hp & Hn & Hr & Hd) En Er Ed. unfold untouched. simpl.
  rewrite length_store. split; [done|].
  destruct (decide (q = p)) as [->|Hne].
  - rewrite load_store_eq by done. repeat split; congruence.
  - by rewrite load_store_ne.
Qed.

Lemma untouched_alloc name p s r ss c t :
  untouched name p s -> untouched name p (mkState r ss c (heap s ++ [t])).
Proof.
  intros (Hp & Hn & Hr & Hd). unfold untouched. simpl.
  rewrite length_app, load_alloc_old by done. simpl. split; [lia|done].
Qed.

Lemma step_untouched ro s line name p :
  wf s -> untouched name p s ->
  (isStatusLine line = true -> statusName line <> name) ->
  untouched name p (step ro s line).
Proof.
  intros W U HS. destruct (step_cases ro s line).
  - done.
  - done.
  - destruct (decide (p0 = p)) as [->|Hne].
    + destruct (wf_suites _ W _ _ _ _ H0 H1) as [_ Hn].
      destruct U as (_ & Hn' & _). destruct (HS H). congruence.
    + destruct U as (Hp & Hn & Hr & Hd). unfold untouched. simpl.
      rewrite length_store, load_store_ne by done. done.
  - by apply untouched_store.
  - by apply untouched_alloc.
  - by apply untouched_alloc.
  - by apply untouched_store.
  - by apply untouched_store.
  - done.
Qed.

Lemma runLines_untouched ros lines name p : forall n s,
  wf s -> untouched name p s ->
  Forall (fun l => isStatusLine l = true -> statusName l <> name) lines ->
  untouched name p (runLines ros n s lines).
Proof.
  induction lines as [|l lines IH]; intros n s W U H; simpl; [done|].
  inversion H; subst. apply IH; [by apply step_wf|by apply step_untouched|done].
Qed.

(** C5: a test made by a record line, which no later status line names,
    is found with result PASS and duration zero at its address in the memory
    of the returned report. *)
Theorem C5_default_result ros before line after info pkgName :
  let s1 := runLines ros 0 init before in
  let p := length (heap s1) in
  isRecordLine line = true ->
  json_Unmarshal line = Some info ->
  (forall testmap, suites s1 !! Info_Suite info = Some testmap ->
                   testmap !! Info_Test info = None) ->
  Forall (fun l => isStatusLine l = true -> statusName l <> Info_Test info) after ->
  (exists testmap,
      suites (step (ros (length before)) s1 line) !! Info_Suite info = Some testmap /\
      testmap !! Info_Test info = Some p) /\
  exists rep h t,
    Parse ros (mkReader (before ++ line :: after) io_EOF) pkgName
    = (Some rep, None, h) /\
    h !! p = Some t /\
    Test_Name t = Info_Test info /\ Test_Result t = PASS /\ Test_Duration t = 0.
Proof.
  cbv zeta. intros HR HJ Hnew Hafter.
  set (s1 := runLines ros 0 init before).
  set (s2 := step (ros (length before)) s1 line).
  assert (W1 : wf s1) by apply runLines_wf, wf_init.
  assert (W2 : wf s2) by by apply step_wf.
  assert (H2 : (exists testmap, suites s2 !! Info_Suite info = Some testmap /\
                  testmap !! Info_Test info = Some (length (heap s1))) /\
               untouched (Info_Test info) (length (heap s1)) s2).
  { unfold s2. destruct (step_cases (ros (length before)) s1 line); try two_rules.
    - assert (info0 = info) as -> by congruence.
      apply Hnew in H1. congruence.
    - assert (info0 = info) as -> by congruence. simpl. split.
      + eexists. rewrite lookup_insert_eq. split; [done|]. apply lookup_insert_eq.
      + unfold untouched. simpl. rewrite length_app, load_alloc_new. simpl.
        split; [lia|done].
    - assert (info0 = info) as -> by congruence. simpl. split.
      + eexists. rewrite lookup_insert_eq. split; [done|]. apply lookup_singleton_eq.
      + unfold untouched. simpl. rewrite length_app, load_alloc_new. simpl.
        split; [lia|done]. }
  destruct H2 as [Hbuf U2]. split; [done|].
  pose proof (runLines_untouched ros after (Info_Test info) (length (heap s1))
                (S (length before)) s2 W2 U2 Hafter) as (Hp & Hn & Hr & Hd).
  eexists _, _, _. split.
  - unfold Parse. simpl. rewrite parseLoop_runLines. reflexivity.
  - rewrite runLines_app. cbn [runLines Nat.add].
    split; [by apply lookup_load|]. done.
Qed.

(** C6 (amended): a line is taken as a structured output record exactly
    when it matches neither the package-result pattern nor the status
    pattern and decoding the whole line into the struct of the three string
    fields succeeds.  Such a line appends its Msg to the Output of the test
    filed under its Suite and Test, which it creates first when there is
    none; no other line creates a test or changes the Output of one. *)
Theorem C6_record_lines ro s line :
  wf s ->
  let s' := step ro s line in
  (isRecordLine line = true <->
   isResultLine line = false /\
   length (FindStringSubmatch regexStatus line) <> 4%nat /\
   is_Some (json_Unmarshal line)) /\
  (isRecordLine line = true ->
   exists info testmap p,
     json_Unmarshal line = Some info /\
     suites s' !! Info_Suite info = Some testmap /\
     testmap !! Info_Test info = Some p /\
     ((exists testmap0, suites s !! Info_Suite info = Some testmap0 /\
                        testmap0 !! Info_Test info = Some p) /\
      length (heap s') = length (heap s) /\
      load (heap s') p = appendOutput (load (heap s) p) (Info_Msg info)
      \/
      (forall testmap0, suites s !! Info_Suite info = Some testmap0 ->
                        testmap0 !! Info_Test info = None) /\
      p = length (heap s) /\
      heap s' = heap s ++ [appendOutput (newTest (Info_Test info)) (Info_Msg info)])) /\
  (isRecordLine line = false ->
   length (heap s') = length (heap s) /\
   forall p, Test_Output (load (heap s') p) = Test_Output (load (heap s) p)).
Proof.
  intros W. cbv zeta. split; [|split].
  - unfold isRecordLine. rewrite !andb_true_iff, !negb_true_iff.
    rewrite bool_decide_eq_true, Nat.eqb_neq. tauto.
  - intros HR. destruct (step_cases ro s line); try two_rules.
    + exists info, testmap, p. simpl.
      destruct (wf_suites _ W _ _ _ _ H1 H2) as [Hp _].
      split; [done|]. split; [done|]. split; [done|]. left.
      split; [eauto|]. rewrite length_store, load_store_eq by done. done.
    + exists info, (<[Info_Test info := length (heap s)]> testmap), (length (heap s)).
      simpl. rewrite !lookup_insert_eq.
      split; [done|]. split; [done|]. split; [done|]. right.
      split; [|done]. intros tm0 E. congruence.
    + exists info, {[Info_Test info := length (heap s)]}, (length (heap s)).
      simpl. rewrite lookup_insert_eq, lookup_singleton_eq.
      split; [done|]. split; [done|]. split; [done|]. right.
      split; [|done]. intros tm0 E. congruence.
  - intros HR. destruct (step_cases ro s line); try two_rules; simpl;
      try done; rewrite length_store; (split; [done|]); intros q.
    + destruct (decide (p = q)) as [->|Hne]; [|by rewrite load_store_ne].
      destruct (wf_suites _ W _ _ _ _ H0 H1) as [Hq _].
      by rewrite load_store_eq.
    + destruct (decide (c = q)) as [->|Hne]; [|by rewrite load_store_ne].
      pose proof (wf_cur _ W _ H0). by rewrite load_store_eq.
    + destruct (decide (c = q)) as [->|Hne]; [|by rewrite load_store_ne].
      pose proof (wf_cur _ W _ H0). by rewrite load_store_eq.
Qed.

(** C10: a package-result line keeps the current test and the memory, and
    the packages it emits list the addresses of the buffer; so a free-text
    line that follows it is appended to the Failure (result FAIL) or the
    SkipMsg (result SKIP) of the current test, which a package of the
    report lists when the buffer held it. *)
Theorem C10_late_text ro1 ro2 s line1 line2 c :
  wf s ->
  cur s = Some c ->
  isResultLine line1 = true ->
  isFreeText line2 = true ->
  let s1 := step ro1 s line1 in
  let s2 := step ro2 s1 line2 in
  cur s1 = Some c /\ heap s1 = heap s /\
  cur s2 = Some c /\ report s2 = report s1 /\
  (forall suite testmap name,
      suites s !! suite = Some testmap -> testmap !! name = Some c ->
      exists pkg, pkg ∈ Packages (report s2) /\
                  Package_Name pkg = suite /\ c ∈ Package_Tests pkg) /\
  (Test_Result (load (heap s) c) = FAIL ->
   Test_Failure (load (heap s2) c) = Test_Failure (load (heap s) c) ++ [line2]) /\
  (Test_Result (load (heap s) c) = SKIP ->
   Test_SkipMsg (load (heap s2) c) = Test_SkipMsg (load (heap s) c) ++ [line2]).
Proof.
  intros W Hc H1 H2. cbv zeta.
  pose proof (wf_cur _ W _ Hc) as Hlt.
  rewrite (step_result ro1 s line1 H1).
  set (s1 := mkState _ _ _ _).
  assert (Hc1 : cur s1 = Some c) by done.
  pose proof (step_free ro2 s1 line2 H2) as E. rewrite Hc1 in E.
  change (heap s1) with (heap s) in E.
  set (s2 := step ro2 s1 line2) in *.
  assert (E1 : cur s2 = Some c /\ report s2 = report s1).
  { rewrite E. by destruct (Test_Result (load (heap s) c)). }
  destruct E1 as [E1 E2].
  split; [done|]. split; [done|]. split; [done|]. split; [done|].
  split; [|split].
  - intros suite testmap name Hs Ht. rewrite E2.
    exists (flushSuite ro1 (heap s) suite testmap). split; [|split].
    + simpl. apply elem_of_app. right. apply list_elem_of_fmap.
      exists (suite, testmap). split; [done|]. by apply rangeSuites_elem.
    + apply flushSuite_Name.
    + apply flushSuite_elem. eauto.
  - intros Hr. rewrite E, Hr. simpl. by rewrite load_store_eq.
  - intros Hr. rewrite E, Hr. simpl. by rewrite load_store_eq.
Qed.

End Records.

(** ** Concrete runs *)

Lemma wf_passedFoo : wf passedFoo.
Proof. apply runLines_wf, wf_init. Qed.

Lemma wf_failedFoo : wf failedFoo.
Proof. apply runLines_wf, wf_init. Qed.

(** C1 on the state after a record and its passing status line. *)
Lemma C1_witness :
  isResultLine "ok   pkgA 0.010s" = true /\
  exists new,
    step (lib := refLib) canonicalOrder passedFoo "ok   pkgA 0.010s"
    = mkState (mkReport (Packages (report passedFoo) ++ new)) ∅
              (cur passedFoo) (heap passedFoo) /\
    Package_Name <$> new ≡ₚ (map_to_list (suites passedFoo)).*1 /\
    forall pkg, pkg ∈ new ->
      let total := sumZ (durations (heap passedFoo) (Package_Tests pkg)) in
      (exists testmap, suites passedFoo !! Package_Name pkg = Some testmap /\
                       Package_Tests pkg ≡ₚ (map_to_list testmap).*2) /\
      Package_Duration pkg = wrap64 total /\
      (int64 total -> Package_Duration pkg = total) /\
      Package_Time pkg = Z.quot (Package_Duration pkg) Millisecond.
Proof.
  split; [vm_compute; reflexivity|].
  apply (C1_flush_duration (lib := refLib)). vm_compute; reflexivity.
Defined.

(** C1 as stated fails: the two durations add up to 10^19 ns, which is
    not the Duration of the package emitted for them. *)
Lemma C1_counterexample :
  let s' := step (lib := refLib) canonicalOrder longTests "ok a 1.0s" in
  isResultLine "ok a 1.0s" = true /\
  exists pkg,
    Packages (report s') = [pkg] /\
    Package_Name pkg = "a" /\
    heap s' = heap longTests /\
    durations (heap longTests) (Package_Tests pkg)
    = [5000000000000000000; 5000000000000000000] /\
    Package_Duration pkg = -8446744073709551616 /\
    Package_Duration pkg <> sumZ (durations (heap longTests) (Package_Tests pkg)).
Proof.
  cbv zeta. split; [vm_compute; reflexivity|].
  eexists. split; [vm_compute; reflexivity|].
  vm_compute. repeat split; discriminate.
Qed.

(** C2 on a stream of one record and no package-result line. *)
Lemma C2_witness :
  let lines := [recordLine "pkgX" "TestBar" "x"] in
  let s := runLines (lib := refLib) canonical 0 init lines in
  Forall (fun l => isResultLine l = false) lines /\
  Parse (lib := refLib) canonical (mkReader lines io_EOF) ""
  = (Some (report s), None, heap s) /\
  Packages (report s) = [].
Proof.
  cbv zeta.
  assert (H : Forall (fun l => isResultLine l = false)
                [recordLine "pkgX" "TestBar" "x"]).
  { repeat constructor. }
  destruct (C2_unclosed_discarded (lib := refLib) canonical
              [recordLine "pkgX" "TestBar" "x"] "") as (H1 & _ & H3).
  split; [exact H|]. split; [exact H1|exact (H3 H)].
Defined.

(** C3 on a status line that names the test through a path. *)
Lemma C3_witness :
  let line := "--- FAIL: pkgA/TestFoo (0.02s)" in
  let s' := step (lib := refLib) canonicalOrder passedFoo line in
  wf passedFoo /\ isStatusLine line = true /\
  exists suite testmap p r,
    suites passedFoo !! suite = Some testmap /\
    testmap !! "TestFoo" = Some p /\
    r = FAIL /\
    Test_Result (load (heap s') p) = r /\
    Test_Duration (load (heap s') p) = 20000000 /\
    cur s' = Some p.
Proof.
  cbv zeta. split; [exact wf_passedFoo|]. split; [vm_compute; reflexivity|].
  destruct (C3_status_line (lib := refLib) canonicalOrder passedFoo
              "--- FAIL: pkgA/TestFoo (0.02s)" wf_passedFoo eq_refl)
    as (_ & _ & [[Hmiss _]|(suite & testmap & p & r & H1 & H2 & _ & Hk & Hs & Hr & Hd)]).
  - exfalso.
    assert (E : suites passedFoo !! "pkgA" = Some {[ "TestFoo" := 0%nat ]})
      by (vm_compute; reflexivity).
    apply Hmiss in E. vm_compute in E. discriminate E.
  - exists suite, testmap, p, r. split; [exact H1|]. split; [exact H2|].
    split.
    { destruct Hk as [[Hk _]|[[_ Hk]|[Hk _]]];
        [vm_compute in Hk; discriminate Hk | exact Hk
        | vm_compute in Hk; discriminate Hk]. }
    split; [exact Hr|]. split; [rewrite Hd; vm_compute; reflexivity|].
    rewrite Hs. reflexivity.
Defined.

(** C4 on a free-text line after a failing status line. *)
Lemma C4_witness :
  let line := "assertion failed at line 5" in
  let s' := step (lib := refLib) canonicalOrder failedFoo line in
  isFreeText line = true /\
  cur failedFoo = Some 0%nat /\
  Test_Result (load (heap failedFoo) 0) = FAIL /\
  s' = mkState (report failedFoo) (suites failedFoo) (cur failedFoo)
         (store (heap failedFoo) 0 (appendFailure (load (heap failedFoo) 0) line)) /\
  Test_Failure (load (heap s') 0) = [line].
Proof.
  cbv zeta.
  destruct (C4_fallback (lib := refLib) canonicalOrder failedFoo
              "assertion failed at line 5" eq_refl) as (_ & H & _).
  specialize (H 0%nat eq_refl).
  split; [vm_compute; reflexivity|]. split; [reflexivity|].
  split; [vm_compute; reflexivity|].
  split; [exact H|vm_compute; reflexivity].
Defined.

(** C5 on a record followed by a package-result line. *)
Lemma C5_witness :
  let line := recordLine "pkgA" "TestBar" "x" in
  let info := mkInfo "pkgA" "TestBar" "x" in
  isRecordLine line = true /\
  json_Unmarshal line = Some info /\
  Forall (fun l => isStatusLine l = true -> statusName l <> "TestBar")
         ["ok pkgA (cached)"] /\
  exists rep h t,
    Parse (lib := refLib) canonical (mkReader ([] ++ line :: ["ok pkgA (cached)"]) io_EOF) ""
    = (Some rep, None, h) /\
    h !! 0%nat = Some t /\
    Test_Name t = "TestBar" /\ Test_Result t = PASS /\ Test_Duration t = 0.
Proof.
  cbv zeta.
  assert (HA : Forall (fun l => isStatusLine l = true -> statusName l <> "TestBar")
                 ["ok pkgA (cached)"]).
  { repeat constructor. intros H. vm_compute in H. discriminate H. }
  split; [vm_compute; reflexivity|]. split; [vm_compute; reflexivity|].
  split; [exact HA|].
  apply (C5_default_result (lib := refLib) canonical []
           (recordLine "pkgA" "TestBar" "x") ["ok pkgA (cached)"]
           (mkInfo "pkgA" "TestBar" "x") "").
  - vm_compute; reflexivity.
  - vm_compute; reflexivity.
  - intros testmap H. vm_compute in H. discriminate H.
  - exact HA.
Defined.

(** C6 as stated fails in both directions: a record whose Msg quotes a
    status line is an object of exactly the three string fields, yet it is
    taken as a status line and creates no test; and the empty object is
    taken as a record and creates a test. *)
Lemma C6_counterexample :
  let quoting := recordLine "a" "b" "--- PASS: x (0.1s)" in
  (threeStringFields quoting = true /\
   json.Unmarshal quoting = Some (mkInfo "a" "b" "--- PASS: x (0.1s)") /\
   classify (lib := refLib) quoting = RuleStatus /\
   step (lib := refLib) canonicalOrder init quoting = init) /\
  (threeStringFields "{}" = false /\
   classify (lib := refLib) "{}" = RuleRecord /\
   heap (step (lib := refLib) canonicalOrder init "{}")
   = [appendOutput (newTest "") ""]).
Proof. vm_compute. repeat split. Qed.

(** C6 on a second record for a test of the buffer. *)
Lemma C6_witness :
  let line := recordLine "pkgA" "TestFoo" "more" in
  let s' := step (lib := refLib) canonicalOrder passedFoo line in
  wf passedFoo /\
  isRecordLine line = true /\
  Test_Output (load (heap s') 0) = ["hello" +:+ newline; "more"].
Proof.
  cbv zeta. split; [exact wf_passedFoo|].
  destruct (C6_record_lines (lib := refLib) canonicalOrder passedFoo
              (recordLine "pkgA" "TestFoo" "more") wf_passedFoo) as (_ & H & _).
  split; [vm_compute; reflexivity|]. specialize (H eq_refl).
  vm_compute. reflexivity.
Defined.

(** C7 on a package-result line that reports a coverage. *)
Lemma C7_witness :
  let r := mkReader [recordLine "pkgA" "TestFoo" "hello\n";
                     "--- PASS: TestFoo (0.01s)";
                     "ok pkgA 0.5s coverage: 87.5% of statements"] io_EOF in
  exists rep h pkg,
    Parse (lib := refLib) canonical r "" = (Some rep, None, h) /\
    Packages rep = [pkg] /\
    Package_CoveragePct pkg = "" /\ Package_Benchmarks pkg = [] /\
    Package_Duration pkg = 10000000.
Proof.
  cbv zeta.
  destruct (C7_result_fields_unused (lib := refLib) canonical
              (mkReader [recordLine "pkgA" "TestFoo" "hello\n";
                         "--- PASS: TestFoo (0.01s)";
                         "ok pkgA 0.5s coverage: 87.5% of statements"] io_EOF) "")
    as (H & _).
  eexists _, _, _. split; [vm_compute; reflexivity|].
  split; [reflexivity|].
  split; [|split; [|reflexivity]].
  - eapply (H _ None _ _); [vm_compute; reflexivity|left].
  - eapply (H _ None _ _); [vm_compute; reflexivity|left].
Defined.

(** C8 on three lines of no known format, with and without a read error. *)
Lemma C8_witness :
  Parse (lib := refLib) canonical
        (mkReader ["not a known line"; "{"; "--- PASS: Unknown (x)"]
                  (io_error "read failed")) ""
  = (None, Some (io_error "read failed"), []) /\
  exists rep h,
    Parse (lib := refLib) canonical
          (mkReader ["not a known line"; "{"; "--- PASS: Unknown (x)"] io_EOF) ""
    = (Some rep, None, h).
Proof.
  split.
  - apply (C8_only_read_errors (lib := refLib) canonical
             (mkReader _ (io_error "read failed")) ""). discriminate.
  - apply (C8_only_read_errors (lib := refLib) canonical (mkReader _ io_EOF) "").
    reflexivity.
Defined.

(** C9 on two packages with one failed test each. *)
Lemma C9_witness :
  (forall p, p ∈ allTests twoFailures.2 -> (p < length twoFailures.1)%nat) /\
  Z.of_nat (length (allTests twoFailures.2)) < 2 ^ 63 /\
  Failures twoFailures.1 twoFailures.2 = Some 2.
Proof.
  assert (H1 : forall p, p ∈ allTests twoFailures.2 -> (p < length twoFailures.1)%nat).
  { intros p Hp. vm_compute in Hp.
    repeat (apply elem_of_cons in Hp as [->|Hp]; [vm_compute; lia|]).
    by apply elem_of_nil in Hp. }
  assert (H2 : Z.of_nat (length (allTests twoFailures.2)) < 2 ^ 63).
  { vm_compute. reflexivity. }
  split; [exact H1|]. split; [exact H2|].
  destruct (C9_Failures_count twoFailures.1 twoFailures.2 H1 H2) as [H _].
  rewrite H. vm_compute. reflexivity.
Defined.

(** C10 on a free-text line that follows the package-result line of a
    failed test. *)
Lemma C10_witness :
  let line1 := "FAIL pkgA 0.020s" in
  let line2 := "late text" in
  let s1 := step (lib := refLib) canonicalOrder failedFoo line1 in
  let s2 := step (lib := refLib) canonicalOrder s1 line2 in
  wf failedFoo /\ cur failedFoo = Some 0%nat /\
  isResultLine line1 = true /\ isFreeText line2 = true /\
  (exists pkg, pkg ∈ Packages (report s2) /\
               Package_Name pkg = "pkgA" /\ 0%nat ∈ Package_Tests pkg) /\
  Test_Failure (load (heap s2) 0) = [line2].
Proof.
  cbv zeta.
  destruct (C10_late_text (lib := refLib) canonicalOrder canonicalOrder failedFoo
              "FAIL pkgA 0.020s" "late text" 0 wf_failedFoo eq_refl eq_refl eq_refl)
    as (_ & _ & _ & _ & Hpkg & Hfail & _).
  split; [exact wf_failedFoo|]. split; [reflexivity|].
  split; [vm_compute; reflexivity|]. split; [vm_compute; reflexivity|].
  split.
  - apply (Hpkg "pkgA" {[ "TestFoo" := 0%nat ]} "TestFoo");
      vm_compute; reflexivity.
  - rewrite Hfail; vm_compute; reflexivity.
Defined.

(** ** Further properties: the patterns *)

Example regexIndent_examples :
  FindStringSubmatch regexIndent "    --- PASS: x (0.1s)" = ["    ---"; "    "]
  /\ FindStringSubmatch regexIndent "--- PASS: x (0.1s)" = [].
Proof. vm_compute. split; reflexivity. Qed.

Example regexCoverage_examples :
  FindStringSubmatch regexCoverage "coverage: 87.5% of statements in ./..."
  = ["coverage: 87.5% of statements in ./..."; "87.5"]
  /\ FindStringSubmatch regexCoverage "coverage: 87% of statements" = [].
Proof. vm_compute. split; reflexivity. Qed.

Example regexBenchmark_examples :
  FindStringSubmatch regexBenchmark
    "BenchmarkFoo-8   1000  1.5 ns/op  16 B/op  2 allocs/op"
  = ["BenchmarkFoo-8   1000  1.5 ns/op  16 B/op  2 allocs/op";
     "BenchmarkFoo"; "1000"; "1.5"; "16"; "2"]
  /\ FindStringSubmatch regexBenchmark "BenchmarkFoo 1000 15 ns/op"
     = ["BenchmarkFoo 1000 15 ns/op"; "BenchmarkFoo"; "1000"; "15"; ""; ""].
Proof. vm_compute. split; reflexivity. Qed.

Example regexOutput_examples :
  FindStringSubmatch regexOutput
    ("        " +:+ String (ascii_of_nat 9) "file.go:3: msg")
  = ["        " +:+ String (ascii_of_nat 9) "file.go:3: msg"; "    ";
     "file.go:3: msg"]
  /\ FindStringSubmatch regexOutput "no tab" = [].
Proof. vm_compute. split; reflexivity. Qed.

(** The search stops at a suffix of the input. *)
Lemma search_suffix r fuel : forall st st',
  search r fuel st = Some st' ->
  exists st0 pre,
    In st' (run (Group 0 r) st0) /\ caps st0 = caps st /\
    rest st = pre ++ rest st0 /\ pos st0 = (pos st + length pre)%nat.
Proof.
  induction fuel as [|fuel IH]; intros st st' H; cbn [search] in H.
  - destruct (run (Group 0 r) st) as [|x l] eqn:E; [done|].
    injection H as <-. exists st, []. rewrite E. simpl.
    split; [by left|]. split; [done|]. split; [done|lia].
  - destruct (run (Group 0 r) st) as [|x l] eqn:E.
    + destruct (rest st) as [|c l'] eqn:Er; [done|].
      apply IH in H as (st0 & pre & H1 & H2 & H3 & H4). simpl in *.
      exists st0, (c :: pre). split; [done|]. split; [done|].
      split; [by rewrite H3|]. simpl. lia.
    + injection H as <-. exists st, []. rewrite E. simpl.
      split; [by left|]. split; [done|]. split; [done|lia].
Qed.

(** A pattern that begins with [^] matches at the start of the line, if
    at all. *)
Lemma anchored_match re r line :
  expr re = Cat Bol r ->
  FindStringSubmatch re line <> [] ->
  exists st,
    In st (run r (mkConfig 0 (list_ascii_of_string line) (fun _ => ""))).
Proof.
  intros Hre H. unfold FindStringSubmatch in H. rewrite Hre in H.
  destruct (search _ _ _) as [st'|] eqn:E; [|done].
  apply search_suffix in E as (st0 & pre & Hin & Hc & Hr & Hp).
  change (run (Group 0 ?x) st0)
    with (map (fun st' => mkConfig (pos st') (rest st')
                            (setcap 0 (consumed st0 st') (caps st')))
              (run x st0)) in Hin.
  apply in_map_iff in Hin as (st1 & _ & Hin).
  change (run (Cat Bol r) st0) with (flat_map (run r) (run Bol st0)) in Hin.
  apply in_flat_map in Hin as (st2 & Hb & Hin). simpl in Hb, Hp, Hr, Hc.
  destruct (Nat.eqb_spec (pos st0) 0) as [E0|]; [|done].
  destruct Hb as [<-|[]]. destruct pre; [|simpl in Hp; lia].
  simpl in Hr. exists st1. destruct st0 as [p0 r0 c0]. simpl in *.
  by subst.
Qed.

Lemma run_Class p st st' :
  In st' (run (Class p) st) ->
  exists c, p c = true /\ rest st = c :: rest st'.
Proof.
  simpl. destruct (rest st) as [|c l]; [done|].
  destruct (p c) eqn:E; [|done]. intros [<-|[]]. by exists c.
Qed.

Lemma string_of_list_ascii_app a b :
  string_of_list_ascii (a ++ b) = string_of_list_ascii a +:+ string_of_list_ascii b.
Proof. induction a as [|c a IH]; simpl; [done|]. by rewrite IH. Qed.

(** X1: a package-result line begins, in its first column, with ok or
    FAIL followed by a white-space character. *)
Theorem result_line_prefix line :
  isResultLine line = true ->
  exists c tail,
    space c = true /\
    (line = "ok" +:+ String c tail \/ line = "FAIL" +:+ String c tail).
Proof.
  intros H. unfold isResultLine in H. apply Nat.eqb_eq in H.
  destruct (anchored_match regexResult _ line eq_refl) as [st Hst].
  { intros E. by rewrite E in H. }
  change (run (Cat ?a ?b) ?x) with (flat_map (run b) (run a x)) in Hst.
  apply in_flat_map in Hst as (st1 & Hg & Hst).
  change (run (Cat ?a ?b) ?x) with (flat_map (run b) (run a x)) in Hst.
  apply in_flat_map in Hst as (st2 & Hs & _).
  unfold Plus in Hs.
  change (run (Cat ?a ?b) ?x) with (flat_map (run b) (run a x)) in Hs.
  apply in_flat_map in Hs as (st3 & Hs & _).
  apply run_Class in Hs as (c & Hc & Hs).
  change (run (Group 1 ?r) ?x)
    with (map (fun st' => mkConfig (pos st') (rest st')
                            (setcap 1 (consumed x st') (caps st')))
              (run r x)) in Hg.
  apply in_map_iff in Hg as (st4 & <- & Hg). simpl in Hs.
  exists c, (string_of_list_ascii (rest st3)). split; [done|].
  change (run (Alt ?a ?b) ?x) with (run a x ++ run b x) in Hg.
  rewrite <- (string_of_list_ascii_of_string line).
  apply in_app_iff in Hg as [Hg|Hg]; apply run_LitL in Hg as [Hg _];
    simpl in Hg; rewrite Hg, Hs; [left|right]; reflexivity.
Qed.

(** The lines that [regexSummary] matches. *)
Lemma regexSummary_spec line :
  FindStringSubmatch regexSummary line <> [] <->
  line = "PASS" \/ line = "FAIL" \/ line = "SKIP".
Proof.
  split.
  - intros H.
    destruct (anchored_match regexSummary _ line eq_refl H) as [st Hst].
    change (run (Cat ?a ?b) ?x) with (flat_map (run b) (run a x)) in Hst.
    apply in_flat_map in Hst as (st1 & Hg & Hst).
    change (run (Cat ?a ?b) ?x) with (flat_map (run b) (run a x)) in Hst.
    apply in_flat_map in Hst as (st2 & He & _).
    change (run (Group 1 ?r) ?x)
      with (map (fun st' => mkConfig (pos st') (rest st')
                              (setcap 1 (consumed x st') (caps st')))
                (run r x)) in Hg.
    apply in_map_iff in Hg as (st4 & <- & Hg). simpl in He.
    destruct (rest st4) eqn:Er; [|done].
    rewrite <- (string_of_list_ascii_of_string line).
    change (run (Alt ?a ?b) ?x) with (run a x ++ run b x) in Hg.
    apply in_app_iff in Hg as [Hg|Hg].
    { apply run_LitL in Hg as [Hg _]. simpl in Hg. rewrite Hg, Er. by left. }
    change (run (Alt ?a ?b) ?x) with (run a x ++ run b x) in Hg.
    apply in_app_iff in Hg as [Hg|Hg];
      apply run_LitL in Hg as [Hg _]; simpl in Hg; rewrite Hg, Er; auto.
  - intros [-> | [-> | ->]]; vm_compute; discriminate.
Qed.

(** X2: the bare summary tokens PASS, FAIL and SKIP are the lines that
    regexSummary matches, and the parser gives them no treatment of their
    own: such a line is neither a package-result line nor a status line, and
    when it does not decode it is handled as free text. *)
Theorem summary_line_is_free_text {lib : GoLib} line :
  FindStringSubmatch regexSummary line <> [] ->
  (line = "PASS" \/ line = "FAIL" \/ line = "SKIP") /\
  isResultLine line = false /\ isStatusLine line = false /\
  (json_Unmarshal line = None -> isFreeText line = true).
Proof.
  intros H. apply regexSummary_spec in H. split; [done|].
  assert (E : isResultLine line = false /\
              Nat.eqb (length (FindStringSubmatch regexStatus line)) 4 = false).
  { destruct H as [-> | [-> | ->]]; vm_compute; done. }
  destruct E as [E1 E2]. unfold isStatusLine, isFreeText. rewrite E1, E2.
  split; [done|]. split; [done|]. intros ->. done.
Qed.

(** ** Further properties: findTest *)

Lemma findTestFrom_spec h tests name : forall n,
  match findTestFrom h tests name n with
  | Some p =>
      exists i, (i < n)%nat /\ tests !! i = Some p /\
                Test_Name (load h p) = name /\
                forall j q, (i < j < n)%nat -> tests !! j = Some q ->
                            Test_Name (load h q) <> name
  | None =>
      (n <= length tests)%nat ->
      forall j q, (j < n)%nat -> tests !! j = Some q ->
                  Test_Name (load h q) <> name
  end.
Proof.
  induction n as [|n IH]; simpl.
  - intros _ j q Hj. lia.
  - destruct (tests !! n) as [t|] eqn:E.
    + destruct (String.eqb_spec (Test_Name (load h t)) name) as [Hn|Hn].
      * exists n. split; [lia|]. split; [done|]. split; [done|].
        intros j q Hj. lia.
      * destruct (findTestFrom h tests name n) as [p|].
        -- destruct IH as (i & Hi & Hp & Hname & Hlast).
           exists i. split; [lia|]. split; [done|]. split; [done|].
           intros j q Hj Hq. destruct (decide (j = n)) as [->|Hne].
           ++ congruence.
           ++ apply (Hlast j q); [lia|done].
        -- intros Hle j q Hj Hq. destruct (decide (j = n)) as [->|Hne].
           ++ congruence.
           ++ apply (IH ltac:(lia) j q); [lia|done].
    + intros Hle. apply lookup_ge_None in E. lia.
Qed.

(** X3: findTest returns the last test of the slice that bears the name,
    and nil exactly when no test of the slice bears it. *)
Theorem findTest_last h (tests : list ptr) name :
  match findTest h tests name with
  | Some p =>
      exists before after,
        tests = before ++ p :: after /\
        Test_Name (load h p) = name /\
        Forall (fun q => Test_Name (load h q) <> name) after
  | None => Forall (fun q => Test_Name (load h q) <> name) tests
  end.
Proof.
  unfold findTest. pose proof (findTestFrom_spec h tests name (length tests)) as H.
  destruct (findTestFrom _ _ _ _) as [p|].
  - destruct H as (i & Hi & Hp & Hn & Hlast).
    exists (take i tests), (drop (S i) tests).
    split; [by rewrite take_drop_middle|]. split; [done|].
    apply Forall_lookup. intros k q Hk. rewrite lookup_drop in Hk.
    apply (Hlast (S i + k)%nat q); [|done].
    apply lookup_lt_Some in Hk. lia.
  - apply Forall_lookup. intros j q Hq. apply (H ltac:(lia) j q); [|done].
    by apply lookup_lt_Some in Hq.
Qed.

(** X4: on the tests of a package as a package-result line emits it,
    findTest returns the test that the buffer filed under the name, and nil
    when it filed none. *)
Theorem findTest_emitted ro s suite testmap name :
  wf s ->
  suites s !! suite = Some testmap ->
  findTest (heap s) (Package_Tests (flushSuite ro (heap s) suite testmap)) name
  = testmap !! name.
Proof.
  intros W Hs.
  pose proof (findTest_last (heap s)
                (Package_Tests (flushSuite ro (heap s) suite testmap)) name) as H.
  destruct (findTest _ _ _) as [p|].
  - destruct H as (before & after & Ht & Hn & _).
    assert (Hp : p ∈ Package_Tests (flushSuite ro (heap s) suite testmap)).
    { rewrite Ht. apply elem_of_app. right. left. }
    apply flushSuite_elem in Hp as [k Hk].
    destruct (wf_suites _ W _ _ _ _ Hs Hk) as [_ Hk']. congruence.
  - destruct (testmap !! name) as [q|] eqn:E; [|done]. exfalso.
    assert (Hq : q ∈ Package_Tests (flushSuite ro (heap s) suite testmap)).
    { apply flushSuite_elem. eauto. }
    rewrite Forall_forall in H. apply (H q Hq).
    by destruct (wf_suites _ W _ _ _ _ Hs E).
Qed.

(** ** Further properties: names with a slash *)

Lemma take_while_Forall {A} (p : A -> bool) l :
  Forall (fun x => p x = true) (path.take_while p l).
Proof.
  induction l as [|x l IH]; simpl; [constructor|].
  destruct (p x) eqn:E; by constructor.
Qed.

(** [Base] returns a name without a slash, or the name of the root. *)
Lemma Base_without_slash p : path.Base p = "/" \/ ~ hasSlash (path.Base p).
Proof.
  unfold path.Base. destruct (String.eqb p "").
  { right. unfold hasSlash. simpl. intros [H|[]]. discriminate H. }
  set (l := path.take_while _ _).
  assert (Hl : Forall (fun c => negb (path.is_slash c) = true) l)
    by apply take_while_Forall.
  destruct (rev l) as [|c r] eqn:E; [by left|right].
  rewrite <- E. unfold hasSlash. rewrite list_ascii_of_string_of_list_ascii.
  intros Hin%in_rev. rewrite Forall_forall in Hl.
  specialize (Hl _ (proj2 (list_elem_of_In _ _) Hin)).
  unfold path.is_slash in Hl. by rewrite Ascii.eqb_refl in Hl.
Qed.

Section Slash.
Context {lib : GoLib}.

Lemma filed_None ss suite test :
  filed ss suite test = None <->
  forall testmap, ss !! suite = Some testmap -> testmap !! test = None.
Proof.
  unfold filed. destruct (ss !! suite) as [tm|]; simpl; split; try done.
  - intros H testmap [= <-]. done.
  - intros H. by apply H.
Qed.

(** The test that a record line creates. *)
Lemma step_creates ro s line info :
  isRecordLine line = true ->
  json_Unmarshal line = Some info ->
  filed (suites s) (Info_Suite info) (Info_Test info) = None ->
  untouched (Info_Test info) (length (heap s)) (step ro s line) /\
  filed (suites (step ro s line)) (Info_Suite info) (Info_Test info)
  = Some (length (heap s)).
Proof.
  intros HR HJ HN. rewrite filed_None in HN.
  destruct (step_cases ro s line); try two_rules;
    assert (info0 = info) as -> by congruence.
  - apply HN in H1. congruence.
  - simpl. split.
    + unfold untouched. simpl. rewrite length_app, load_alloc_new. simpl.
      split; [lia|done].
    + unfold filed. rewrite lookup_insert_eq. simpl. apply lookup_insert_eq.
  - simpl. split.
    + unfold untouched. simpl. rewrite length_app, load_alloc_new. simpl.
      split; [lia|done].
    + unfold filed. rewrite lookup_insert_eq. simpl. apply lookup_singleton_eq.
Qed.

(** X5: a status line never finds a test whose name has a slash (the
    name "/" apart), since it looks up the last path segment of the name it
    captured: a test recorded under such a name keeps result PASS and
    duration zero to the end of the stream, whatever lines follow. *)
Theorem slash_named_test_unresolved ros before line after info pkgName :
  let s1 := runLines ros 0 init before in
  let p := length (heap s1) in
  isRecordLine line = true ->
  json_Unmarshal line = Some info ->
  filed (suites s1) (Info_Suite info) (Info_Test info) = None ->
  hasSlash (Info_Test info) ->
  Info_Test info <> "/" ->
  exists rep h t,
    Parse ros (mkReader (before ++ line :: after) io_EOF) pkgName
    = (Some rep, None, h) /\
    h !! p = Some t /\
    Test_Name t = Info_Test info /\ Test_Result t = PASS /\ Test_Duration t = 0.
Proof.
  cbv zeta. intros HR HJ HN Hs Hr.
  set (s1 := runLines ros 0 init before).
  assert (W1 : wf s1) by apply runLines_wf, wf_init.
  destruct (step_creates (ros (length before)) s1 line info HR HJ HN) as [U _].
  assert (Hafter : Forall (fun l => isStatusLine l = true ->
                                    statusName l <> Info_Test info) after).
  { apply Forall_forall. intros l _ _ E. unfold statusName in E.
    destruct (Base_without_slash
                (nth 2 (FindStringSubmatch regexStatus l) "")) as [B|B];
      rewrite E in B; done. }
  pose proof (runLines_untouched ros after (Info_Test info) (length (heap s1))
                (S (length before)) _ (step_wf _ _ line W1) U Hafter)
    as (Hp & Hn & Hres & Hd).
  eexists _, _, _. split.
  - unfold Parse. simpl. rewrite parseLoop_runLines. reflexivity.
  - rewrite runLines_app. cbn [runLines Nat.add].
    split; [by apply lookup_load|]. done.
Qed.

End Slash.

(** ** Further properties: parseLine *)

Section ParseLine.
Context {lib : GoLib}.

(** X6: on a non-empty line that the loop of Parse takes as a structured
    output record, parseLine changes the buffer and the memory exactly as
    that loop does. *)
Theorem parseLine_as_rule3 ro s line :
  line <> "" ->
  isRecordLine line = true ->
  parseLine line (suites s) (heap s)
  = (suites (step ro s line), heap (step ro s line)).
Proof.
  intros Hne HR. unfold parseLine.
  destruct (String.eqb_spec line "") as [E|_]; [done|].
  destruct (step_cases ro s line); try two_rules; simpl.
  - by rewrite H0, H1, H2.
  - by rewrite H0, H1, H2.
  - by rewrite H0, H1.
Qed.

Lemma recordsFor_app suite test l1 l2 :
  recordsFor suite test (l1 ++ l2)
  = recordsFor suite test l1 ++ recordsFor suite test l2.
Proof. unfold recordsFor. apply flat_map_app. Qed.

Lemma filed_insert (ss : gmap string (gmap string ptr)) testmap suite test p su te :
  (ss !! suite = Some testmap \/ ss !! suite = None /\ testmap = ∅) ->
  filed (<[suite := <[test := p]> testmap]> ss) su te
  = if decide (su = suite /\ te = test) then Some p else filed ss su te.
Proof.
  intros H. unfold filed.
  destruct (decide (su = suite)) as [->|Hne].
  - rewrite lookup_insert_eq. simpl.
    destruct (decide (te = test)) as [->|Hne'].
    + rewrite lookup_insert_eq. by rewrite decide_True.
    + rewrite lookup_insert_ne by done. rewrite decide_False by tauto.
      destruct H as [->|[-> ->]]; simpl; [done|apply lookup_empty].
  - rewrite lookup_insert_ne by done. by rewrite decide_False by tauto.
Qed.

(** What the invariant of the accumulation needs beside [accumulated]. *)
Lemma parseLine_accumulated done l st :
  accumulated done st ->
  (forall s1 t1 s2 t2 p, filed st.1 s1 t1 = Some p -> filed st.1 s2 t2 = Some p ->
                         s1 = s2 /\ t1 = t2) ->
  accumulated (done ++ [l]) (parseLine l st.1 st.2) /\
  (forall s1 t1 s2 t2 p,
      filed (parseLine l st.1 st.2).1 s1 t1 = Some p ->
      filed (parseLine l st.1 st.2).1 s2 t2 = Some p ->
      s1 = s2 /\ t1 = t2).
Proof.
  destruct st as [ss h]. simpl. intros A I.
  assert (Hlt : forall su te q, filed ss su te = Some q -> (q < length h)%nat).
  { intros su te q Hq. specialize (A su te). simpl in A. rewrite Hq in A.
    destruct A as [A _]. by apply lookup_lt_Some in A. }
  assert (Skip : (forall su te, recordsFor su te [l] = []) ->
                 accumulated (done ++ [l]) (ss, h)).
  { intros E su te. specialize (A su te). cbn [fst snd] in *.
    by rewrite recordsFor_app, E, app_nil_r. }
  unfold parseLine.
  destruct (String.eqb_spec l "") as [->|Hl].
  { split; [|done]. apply Skip. intros su te. done. }
  destruct (json_Unmarshal l) as [info|] eqn:EJ.
  2:{ split; [|done]. apply Skip. intros su te. unfold recordsFor. simpl.
      destruct (String.eqb_spec l ""); [done|]. by rewrite EJ. }
  assert (One : forall su te,
             recordsFor su te [l]
             = if decide (su = Info_Suite info /\ te = Info_Test info)
               then [Info_Msg info] else []).
  { intros su te. unfold recordsFor. simpl.
    destruct (String.eqb_spec l ""); [done|]. rewrite EJ.
    destruct (String.eqb_spec (Info_Suite info) su) as [<-|N1]; simpl.
    - destruct (String.eqb_spec (Info_Test info) te) as [<-|N2]; simpl.
      + by rewrite decide_True.
      + rewrite decide_False; [done|]. intros [_ ?]. congruence.
    - rewrite decide_False; [done|]. intros [? _]. congruence. }
  assert (New : forall testmap,
             (ss !! Info_Suite info = Some testmap
              \/ ss !! Info_Suite info = None /\ testmap = ∅) ->
             filed ss (Info_Suite info) (Info_Test info) = None ->
             let st' := (<[Info_Suite info := <[Info_Test info := length h]> testmap]> ss,
                         h ++ [appendOutput (newTest (Info_Test info)) (Info_Msg info)]) in
             accumulated (done ++ [l]) st' /\
             (forall s1 t1 s2 t2 p, filed st'.1 s1 t1 = Some p ->
                                    filed st'.1 s2 t2 = Some p -> s1 = s2 /\ t1 = t2)).
  { intros testmap Htm Hnone. cbv zeta. simpl. split.
    - intros su te. simpl. rewrite (filed_insert ss testmap) by done.
      rewrite recordsFor_app, One. specialize (A su te). simpl in A.
      destruct (decide (su = Info_Suite info /\ te = Info_Test info)) as [[-> ->]|N].
      + rewrite Hnone in A. rewrite A. simpl.
        split; [|done]. by rewrite lookup_app_r, Nat.sub_diag.
      + rewrite app_nil_r. destruct (filed ss su te) as [q|] eqn:Eq; [|done].
        destruct A as [A1 A2]. split; [|done]. by apply lookup_app_l_Some.
    - intros s1 t1 s2 t2 p. rewrite !(filed_insert ss testmap) by done.
      destruct (decide (s1 = _ /\ t1 = _)) as [[-> ->]|N1];
        destruct (decide (s2 = _ /\ t2 = _)) as [[-> ->]|N2]; try done.
      + intros [= <-] H2. apply Hlt in H2. lia.
      + intros H1 [= <-]. apply Hlt in H1. lia.
      + apply I. }
  destruct (ss !! Info_Suite info) as [testmap|] eqn:E1.
  - destruct (testmap !! Info_Test info) as [p|] eqn:E2.
    + simpl. split; [|done].
      assert (Hf : filed ss (Info_Suite info) (Info_Test info) = Some p).
      { unfold filed. by rewrite E1. }
      intros su te. simpl. rewrite recordsFor_app, One.
      pose proof (A su te) as Ast. simpl in Ast.
      destruct (decide (su = Info_Suite info /\ te = Info_Test info)) as [[-> ->]|N].
      * rewrite Hf in *. destruct Ast as [A1 A2]. split.
        -- unfold store. rewrite list_lookup_insert_eq by by eapply Hlt.
           unfold load. rewrite A1. reflexivity.
        -- intros E. by apply app_eq_nil in E as [_ E].
      * rewrite app_nil_r. destruct (filed ss su te) as [q|] eqn:Eq; [|done].
        destruct Ast as [A1 A2]. split; [|done].
        unfold store. rewrite list_lookup_insert_ne; [done|].
        intros <-. destruct (I _ _ _ _ _ Hf Eq) as [E3 E4]. by apply N.
    + apply (New testmap); [by left|]. unfold filed. by rewrite E1.
  - apply (New ∅); [by right|]. unfold filed. by rewrite E1.
Qed.

Lemma parseLines_accumulated lines : forall done st,
  accumulated done st ->
  (forall s1 t1 s2 t2 p, filed st.1 s1 t1 = Some p -> filed st.1 s2 t2 = Some p ->
                         s1 = s2 /\ t1 = t2) ->
  accumulated (done ++ lines) (parseLines lines st).
Proof.
  induction lines as [|l lines IH]; intros done st A I; simpl.
  - by rewrite app_nil_r.
  - destruct (parseLine_accumulated done l st A I) as [A' I'].
    replace (done ++ l :: lines) with ((done ++ [l]) ++ lines)
      by by rewrite <- app_assoc.
    by apply IH.
Qed.

(** X7: after parseLine has been applied to each line of a list in turn,
    from an empty buffer, a test is filed under a suite and a name exactly
    when some line recorded a message for them, and that test then has the
    name, result PASS, duration zero and, as its Output, the messages
    recorded for it in the order of the lines. *)
Theorem parseLines_outputs lines suite test :
  let st := parseLines lines (∅, []) in
  match filed st.1 suite test with
  | Some p =>
      st.2 !! p = Some (mkTest test 0 PASS (recordsFor suite test lines) [] [] "" 0)
      /\ recordsFor suite test lines <> []
  | None => recordsFor suite test lines = []
  end.
Proof.
  cbv zeta.
  assert (A : accumulated ([] ++ lines) (parseLines lines (∅, []))).
  { apply parseLines_accumulated.
    - intros su te. simpl. unfold filed. by rewrite lookup_empty.
    - intros s1 t1 s2 t2 p. simpl. unfold filed. by rewrite lookup_empty. }
  apply (A suite test).
Qed.

End ParseLine.

(** ** Further properties: what Parse keeps *)

Section Invariants.
Context {lib : GoLib}.

Lemma filed_Some ss suite test p :
  filed ss suite test = Some p <->
  exists testmap, ss !! suite = Some testmap /\ testmap !! test = Some p.
Proof.
  unfold filed. destruct (ss !! suite) as [tm|]; simpl; split.
  - intros H. by exists tm.
  - intros (tm' & [= <-] & H). done.
  - done.
  - intros (tm' & H & _). done.
Qed.

Lemma wf_filed s suite test p :
  wf s -> filed (suites s) suite test = Some p ->
  (p < length (heap s))%nat /\ Test_Name (load (heap s) p) = test.
Proof.
  intros W (tm & H1 & H2)%filed_Some. by apply (wf_suites _ W suite tm).
Qed.

Lemma tidy_empty : tidy ∅.
Proof.
  split.
  - intros s1 t1 s2 t2 p H. unfold filed in H. by rewrite lookup_empty in H.
  - intros suite testmap H. by rewrite lookup_empty in H.
Qed.

Lemma tidy_insert ss testmap suite test (n : nat) :
  tidy ss ->
  (ss !! suite = Some testmap \/ ss !! suite = None /\ testmap = ∅) ->
  (forall su te q, filed ss su te = Some q -> (q < n)%nat) ->
  tidy (<[suite := <[test := n]> testmap]> ss).
Proof.
  intros [I N] Htm Hlt. split.
  - intros s1 t1 s2 t2 p. rewrite !(filed_insert ss testmap) by done.
    destruct (decide (s1 = _ /\ t1 = _)) as [[-> ->]|N1];
      destruct (decide (s2 = _ /\ t2 = _)) as [[-> ->]|N2]; try done.
    + intros [= <-] H2. apply Hlt in H2. lia.
    + intros H1 [= <-]. apply Hlt in H1. lia.
    + apply I.
  - intros su tm. destruct (decide (su = suite)) as [->|Hne].
    + rewrite lookup_insert_eq. intros [= <-]. apply insert_non_empty.
    + rewrite lookup_insert_ne by done. apply N.
Qed.

Lemma step_tidy ro s line :
  wf s -> tidy (suites s) -> tidy (suites (step ro s line)).
Proof.
  intros W T. destruct (step_cases ro s line); simpl; try done;
    try apply tidy_empty.
  - apply tidy_insert; [done|by left|].
    intros su te q Hq. by apply (wf_filed s su te q).
  - rewrite <- insert_empty. apply tidy_insert; [done|by right|].
    intros su te q Hq. by apply (wf_filed s su te q).
Qed.

(** *** The memory only grows *)

Lemma continues_refl h : continues h h.
Proof. split; [done|]. intros p Hp. repeat split; reflexivity. Qed.

Lemma continues_trans h1 h2 h3 :
  continues h1 h2 -> continues h2 h3 -> continues h1 h3.
Proof.
  intros [L1 H1] [L2 H2]. split; [lia|]. intros p Hp.
  destruct (H1 p Hp) as (A1 & A2 & A3 & A4).
  destruct (H2 p ltac:(lia)) as (B1 & B2 & B3 & B4).
  split; [congruence|]. repeat split; etrans; eauto.
Qed.

Lemma continues_store h p t :
  Test_Name t = Test_Name (load h p) ->
  Test_Output (load h p) `prefix_of` Test_Output t ->
  Test_Failure (load h p) `prefix_of` Test_Failure t ->
  Test_SkipMsg (load h p) `prefix_of` Test_SkipMsg t ->
  continues h (store h p t).
Proof.
  intros Hn Ho Hf Hs. split; [by rewrite length_store|]. intros q Hq.
  destruct (decide (p = q)) as [->|Hne].
  - rewrite load_store_eq by done. done.
  - rewrite load_store_ne by done. repeat split; reflexivity.
Qed.

Lemma continues_alloc h t : continues h (h ++ [t]).
Proof.
  split; [rewrite length_app; lia|]. intros p Hp.
  rewrite load_alloc_old by done. repeat split; reflexivity.
Qed.

Lemma step_continues ro s line : continues (heap s) (heap (step ro s line)).
Proof.
  destruct (step_cases ro s line); simpl;
    try apply continues_refl; try apply continues_alloc;
    apply continues_store; simpl; try reflexivity;
    by apply prefix_app_r.
Qed.

Lemma runLines_continues ros lines : forall n s,
  continues (heap s) (heap (runLines ros n s lines)).
Proof.
  induction lines as [|l lines IH]; intros n s; simpl.
  - apply continues_refl.
  - eapply continues_trans; [apply step_continues|apply IH].
Qed.

(** *** The report only grows, and what it lists is settled *)

Lemma step_report_prefix ro s line :
  Packages (report s) `prefix_of` Packages (report (step ro s line)).
Proof.
  destruct (step_cases ro s line); simpl; try reflexivity.
  by apply prefix_app_r.
Qed.

Lemma load_store_cases h q t p :
  load (store h q t) p = load h p \/ (p = q /\ load (store h q t) p = t).
Proof.
  destruct (decide (q = p)) as [->|Hne]; [|left; by apply load_store_ne].
  destruct (decide (p < length h)%nat) as [Hp|Hp].
  - right. split; [done|]. by apply load_store_eq.
  - left. unfold store. rewrite list_insert_ge; [done|lia].
Qed.

Lemma step_settled ro s line pkg p :
  wf s -> pkg ∈ Packages (report s) -> p ∈ Package_Tests pkg ->
  Test_Result (load (heap (step ro s line)) p) = Test_Result (load (heap s) p) /\
  Test_Duration (load (heap (step ro s line)) p) = Test_Duration (load (heap s) p).
Proof.
  intros W Hpkg Hp. pose proof (wf_report _ W _ _ Hpkg Hp) as Hlt.
  destruct (step_cases ro s line); simpl; try done.
  - assert (p0 <> p).
    { intros ->. by apply (wf_sep _ W pkg p suite testmap (statusName line)). }
    by rewrite load_store_ne.
  - destruct (load_store_cases (heap s) p0
                (appendOutput (load (heap s) p0) (Info_Msg info)) p)
      as [->|[-> ->]]; done.
  - by rewrite load_alloc_old.
  - by rewrite load_alloc_old.
  - destruct (load_store_cases (heap s) c (appendFailure (load (heap s) c) line) p)
      as [->|[-> ->]]; done.
  - destruct (load_store_cases (heap s) c (appendSkipMsg (load (heap s) c) line) p)
      as [->|[-> ->]]; done.
Qed.

Lemma runLines_settled ros lines : forall n s pkg p,
  wf s -> pkg ∈ Packages (report s) -> p ∈ Package_Tests pkg ->
  pkg ∈ Packages (report (runLines ros n s lines)) /\
  Test_Result (load (heap (runLines ros n s lines)) p) = Test_Result (load (heap s) p) /\
  Test_Duration (load (heap (runLines ros n s lines)) p)
  = Test_Duration (load (heap s) p).
Proof.
  induction lines as [|l lines IH]; intros n s pkg p W Hpkg Hp; simpl; [done|].
  destruct (step_settled (ros n) s l pkg p W Hpkg Hp) as [E1 E2].
  assert (Hpkg' : pkg ∈ Packages (report (step (ros n) s l))).
  { destruct (step_report_prefix (ros n) s l) as [k ->].
    apply elem_of_app. by left. }
  destruct (IH (S n) (step (ros n) s l) pkg p (step_wf _ _ _ W) Hpkg' Hp)
    as (H1 & H2 & H3).
  split; [done|]. split; congruence.
Qed.

End Invariants.

Section Reports.
Context {lib : GoLib}.

Lemma names_flush ro s suite testmap :
  wf s -> suites s !! suite = Some testmap ->
  names (heap s) (Package_Tests (flushSuite ro (heap s) suite testmap))
  = (rangeTests ro suite testmap).*1.
Proof.
  intros W Hs. rewrite flushSuite_Tests. unfold names.
  assert (H : forall e, e ∈ rangeTests ro suite testmap -> testmap !! e.1 = Some e.2).
  { intros [k p] He. rewrite rangeTests_perm in He.
    by apply elem_of_map_to_list in He. }
  induction (rangeTests ro suite testmap) as [|[k p] l IH]; simpl; [done|].
  f_equal.
  - apply (wf_suites _ W suite testmap k p Hs). apply (H (k, p)). left.
  - apply IH. intros e He. apply H. by right.
Qed.

Lemma flush_tests_nodup ro h (testmap : gmap string ptr) suite ss :
  tidy ss -> ss !! suite = Some testmap ->
  NoDup (Package_Tests (flushSuite ro h suite testmap)).
Proof.
  intros T Hs. rewrite flushSuite_Tests_perm.
  apply NoDup_fmap_2_strong; [|apply NoDup_map_to_list].
  intros [k1 p1] [k2 p2] H1%elem_of_map_to_list H2%elem_of_map_to_list E.
  simpl in E. subst p2.
  destruct (tidy_inj _ T suite k1 suite k2 p1) as [_ ->]; [..|done];
    apply filed_Some; eauto.
Qed.

Lemma flush_all_nodup ro h ss (order : list (string * gmap string ptr)) :
  tidy ss -> NoDup order.*1 ->
  (forall e, e ∈ order -> ss !! e.1 = Some e.2) ->
  NoDup (concat (map Package_Tests
                   (map (fun e => flushSuite ro h e.1 e.2) order))).
Proof.
  intros T. induction order as [|[su tm] order IH]; intros Hnd Hin; simpl.
  - constructor.
  - inversion Hnd as [|? ? Hnotin Hnd']; subst.
    apply NoDup_app. split; [|split].
    + apply (flush_tests_nodup ro h tm su ss T). apply (Hin (su, tm)). left.
    + intros p Hp Hp'. apply flushSuite_elem in Hp as [k Hk].
      apply list_elem_of_In, in_concat in Hp' as (l & Hl & Hp').
      apply in_map_iff in Hl as (pkg & <- & Hpkg).
      apply in_map_iff in Hpkg as ([su' tm'] & <- & He).
      apply list_elem_of_In in He, Hp'. simpl in Hp'.
      apply flushSuite_elem in Hp' as [k' Hk'].
      destruct (tidy_inj _ T su k su' k' p) as [-> _].
      * apply filed_Some. exists tm. split; [|done]. apply (Hin (su, tm)). left.
      * apply filed_Some. exists tm'. split; [|done].
        apply (Hin (su', tm')). by right.
      * apply Hnotin. apply list_elem_of_fmap. by exists (su', tm').
    + apply IH; [done|]. intros e He. apply Hin. by right.
Qed.

Lemma allTests_app r new :
  allTests (mkReport (Packages r ++ new))
  = allTests r ++ concat (map Package_Tests new).
Proof. unfold allTests. simpl. by rewrite map_app, concat_app. Qed.

Lemma elem_of_allTests r p :
  p ∈ allTests r <-> exists pkg, pkg ∈ Packages r /\ p ∈ Package_Tests pkg.
Proof.
  unfold allTests. rewrite list_elem_of_In, in_concat. split.
  - intros (l & Hl & Hp). apply in_map_iff in Hl as (pkg & <- & Hpkg).
    exists pkg. by rewrite !list_elem_of_In.
  - intros (pkg & Hpkg & Hp). exists (Package_Tests pkg).
    rewrite in_map_iff. split; [|by apply list_elem_of_In].
    exists pkg. split; [done|]. by apply list_elem_of_In.
Qed.

Lemma sound_report_init : sound_report init.
Proof.
  split; simpl.
  - constructor.
  - intros pkg H. by apply elem_of_nil in H.
  - intros pkg H. by apply elem_of_nil in H.
  - intros pkg H. by apply elem_of_nil in H.
Qed.

(** The names and durations of the tests that the report lists are the
    same after a step. *)
Lemma step_report_view ro s line pkg :
  wf s -> pkg ∈ Packages (report s) ->
  names (heap (step ro s line)) (Package_Tests pkg)
  = names (heap s) (Package_Tests pkg) /\
  durations (heap (step ro s line)) (Package_Tests pkg)
  = durations (heap s) (Package_Tests pkg).
Proof.
  intros W Hpkg.
  assert (H : forall p, p ∈ Package_Tests pkg ->
            Test_Name (load (heap (step ro s line)) p) = Test_Name (load (heap s) p) /\
            Test_Duration (load (heap (step ro s line)) p)
            = Test_Duration (load (heap s) p)).
  { intros p Hp. split.
    - destruct (step_continues ro s line) as [_ C].
      by destruct (C p (wf_report _ W _ _ Hpkg Hp)).
    - by destruct (step_settled ro s line pkg p W Hpkg Hp). }
  unfold names, durations.
  induction (Package_Tests pkg) as [|p l IH]; simpl; [done|].
  destruct (H p ltac:(left)) as [-> ->].
  destruct IH as [-> ->]; [|done]. intros q Hq. apply H. by right.
Qed.

Lemma step_sound ro s line :
  wf s -> tidy (suites s) -> sound_report s -> sound_report (step ro s line).
Proof.
  intros W T [S1 S2 S3 S4].
  destruct (isResultLine line) eqn:ER.
  - rewrite step_result by done.
    assert (Hnew : forall pkg,
               pkg ∈ map (fun e => flushSuite ro (heap s) e.1 e.2)
                         (rangeSuites ro (suites s)) ->
               exists suite testmap, suites s !! suite = Some testmap /\
                                     pkg = flushSuite ro (heap s) suite testmap).
    { intros pkg Hpkg. apply list_elem_of_fmap in Hpkg as [[su tm] [-> Hin]].
      apply rangeSuites_elem in Hin. by exists su, tm. }
    split; simpl.
    + rewrite allTests_app. apply NoDup_app. split; [done|]. split.
      * intros p Hp Hp'. apply elem_of_allTests in Hp as (pkg & Hpkg & Hp).
        apply list_elem_of_In, in_concat in Hp' as (l & Hl & Hp').
        apply in_map_iff in Hl as (pkg' & <- & Hpkg').
        apply list_elem_of_In in Hpkg', Hp'.
        apply Hnew in Hpkg' as (su & tm & Hs & ->).
        apply flushSuite_elem in Hp' as [k Hk].
        by apply (wf_sep _ W pkg p su tm k).
      * apply (flush_all_nodup ro (heap s) (suites s)); [done| |].
        -- rewrite rangeSuites_perm. apply NoDup_fst_map_to_list.
        -- intros [su tm] He. by apply rangeSuites_elem in He.
    + intros pkg Hpkg. apply elem_of_app in Hpkg as [Hpkg|Hpkg]; [by apply S2|].
      apply Hnew in Hpkg as (su & tm & Hs & ->).
      rewrite names_flush by done. rewrite rangeTests_perm.
      apply NoDup_fst_map_to_list.
    + intros pkg Hpkg. apply elem_of_app in Hpkg as [Hpkg|Hpkg]; [by apply S3|].
      apply Hnew in Hpkg as (su & tm & Hs & ->). intros E.
      pose proof (flushSuite_Tests_perm ro (heap s) su tm) as P.
      rewrite E in P. apply Permutation_nil_l in P. symmetry in P.
      apply fmap_nil_inv in P. apply map_to_list_empty_iff in P.
      by apply (tidy_nonempty _ T su tm).
    + intros pkg Hpkg. apply elem_of_app in Hpkg as [Hpkg|Hpkg]; [by apply S4|].
      apply Hnew in Hpkg as (su & tm & Hs & ->).
      split; [apply flushSuite_Duration|apply flushSuite_Time].
  - rewrite <- (step_report_other ro s line ER) in S1, S2, S3, S4.
    split; try done.
    + intros pkg Hpkg. rewrite (step_report_other ro s line ER) in Hpkg.
      destruct (step_report_view ro s line pkg W Hpkg) as [-> _].
      apply S2. by rewrite (step_report_other ro s line ER).
    + intros pkg Hpkg. pose proof Hpkg as Hpkg'.
      rewrite (step_report_other ro s line ER) in Hpkg'.
      destruct (step_report_view ro s line pkg W Hpkg') as [_ ->].
      by apply S4.
Qed.

(** The three invariants together. *)
Lemma runLines_sound ros lines : forall n s,
  wf s -> tidy (suites s) -> sound_report s ->
  wf (runLines ros n s lines) /\ tidy (suites (runLines ros n s lines)) /\
  sound_report (runLines ros n s lines).
Proof.
  induction lines as [|l lines IH]; intros n s W T S; simpl; [done|].
  apply IH; [by apply step_wf|by apply step_tidy|by apply step_sound].
Qed.

Lemma Parse_runLines ros r pkgName rep e h :
  Parse ros r pkgName = (Some rep, e, h) ->
  let s := runLines ros 0 init (reader_lines r) in
  rep = report s /\ h = heap s /\ e = None /\ reader_err r = io_EOF.
Proof.
  unfold Parse. rewrite parseLoop_runLines.
  destruct (reader_err r); [|done]. by intros [= <- <- <-].
Qed.

(** *** Every test is as its record made it *)

Lemma step_as_created ro s line :
  wf s -> Forall as_created (heap s) -> Forall as_created (heap (step ro s line)).
Proof.
  intros W F.
  assert (L : forall p, (p < length (heap s))%nat -> as_created (load (heap s) p)).
  { intros p Hp. rewrite Forall_lookup in F. apply (F p). by apply lookup_load. }
  assert (G : forall t msg, as_created t -> as_created (appendOutput t msg)).
  { intros t msg (A1 & A2 & A3). split; [|done]. simpl. intros E.
    by apply app_eq_nil in E as [_ E]. }
  assert (N : forall name msg, as_created (appendOutput (newTest name) msg)).
  { intros name msg. split; [|done]. simpl. discriminate. }
  destruct (step_cases ro s line); simpl; try done.
  - apply Forall_insert; [done|].
    destruct (wf_suites _ W _ _ _ _ H0 H1) as [Hp _]. apply (L p Hp).
  - apply Forall_insert; [done|]. apply G, L.
    by destruct (wf_suites _ W _ _ _ _ H1 H2).
  - apply Forall_app. split; [done|]. apply Forall_singleton, N.
  - apply Forall_app. split; [done|]. apply Forall_singleton, N.
  - apply Forall_insert; [done|]. apply (L c), (wf_cur _ W c H0).
  - apply Forall_insert; [done|]. apply (L c), (wf_cur _ W c H0).
Qed.

Lemma runLines_as_created ros lines : forall n s,
  wf s -> Forall as_created (heap s) ->
  Forall as_created (heap (runLines ros n s lines)).
Proof.
  induction lines as [|l lines IH]; intros n s W F; simpl; [done|].
  apply IH; [by apply step_wf|by apply step_as_created].
Qed.

(** *** The size of the memory *)

Lemma step_heap_length ro s line :
  (length (heap (step ro s line)) <= S (length (heap s)))%nat.
Proof.
  destruct (step_cases ro s line); simpl;
    rewrite ?length_store, ?length_app; simpl; lia.
Qed.

Lemma runLines_heap_length ros lines : forall n s,
  (length (heap (runLines ros n s lines)) <= length (heap s) + length lines)%nat.
Proof.
  induction lines as [|l lines IH]; intros n s; simpl; [lia|].
  pose proof (IH (S n) (step (ros n) s l)).
  pose proof (step_heap_length (ros n) s l). lia.
Qed.

Lemma nodup_bounded (l : list nat) n :
  NoDup l -> (forall x, x ∈ l -> (x < n)%nat) -> (length l <= n)%nat.
Proof.
  intros Hnd Hb.
  assert (H : l ⊆+ seq 0 n).
  { apply NoDup_submseteq; [done|].
    intros x Hx. apply elem_of_seq. specialize (Hb x Hx). lia. }
  apply submseteq_length in H. by rewrite length_seq in H.
Qed.

End Reports.

(** Failures, package by package, from any count. *)
Lemma Failures_packages (h : list Test) (pkgs : list Package) : forall (c : nat),
  (forall p, p ∈ concat (map Package_Tests pkgs) -> (p < length h)%nat) ->
  Z.of_nat c + Z.of_nat (length (concat (map Package_Tests pkgs))) < 2 ^ 63 ->
  foldl (fun (count : option Z) (p : Package) =>
           foldl (fun (count : option Z) (t : ptr) =>
                    count ← count;
                    t ← h !! t;
                    Some (if decide (Test_Result t = FAIL)
                          then int (count + 1) else count))
                 count (Package_Tests p))
        (Some (Z.of_nat c)) pkgs
  = Some (Z.of_nat (c + length (filter (fun p => Test_Result (load h p) = FAIL)
                                       (concat (map Package_Tests pkgs))))).
Proof.
  induction pkgs as [|pkg pkgs IH]; intros c Hv Hb; simpl in *.
  - f_equal. lia.
  - rewrite length_app in Hb.
    rewrite Failures_tests;
      [|intros p Hp; apply Hv, elem_of_app; by left|lia|lia].
    rewrite <- Nat2Z.inj_add.
    rewrite IH; [|intros p Hp; apply Hv, elem_of_app; by right|].
    + rewrite filter_app, length_app. f_equal. lia.
    + pose proof (length_filter (fun p => Test_Result (load h p) = FAIL)
                    (Package_Tests pkg)). lia.
Qed.

(** ** Further properties: the returned report *)

Section Returned.
Context {lib : GoLib}.

Lemma Parse_invariants ros r pkgName rep e h :
  Parse ros r pkgName = (Some rep, e, h) ->
  exists s, rep = report s /\ h = heap s /\
            s = runLines ros 0 init (reader_lines r) /\
            wf s /\ tidy (suites s) /\ sound_report s.
Proof.
  intros HP. apply Parse_runLines in HP as (-> & -> & _ & _).
  eexists. split; [done|]. split; [done|]. split; [done|].
  apply runLines_sound; [apply wf_init|apply tidy_empty|apply sound_report_init].
Qed.

(** X8: in the returned report the Duration of every package is the sum,
    in 64-bit signed arithmetic, of the durations that its tests have in the
    returned memory, and its Time is that Duration in whole milliseconds:
    no line after the package was emitted has changed them. *)
Theorem report_durations ros r pkgName rep e h pkg :
  Parse ros r pkgName = (Some rep, e, h) ->
  pkg ∈ Packages rep ->
  Package_Duration pkg = wrap64 (sumZ (durations h (Package_Tests pkg))) /\
  Package_Time pkg = Z.quot (Package_Duration pkg) Millisecond.
Proof.
  intros HP Hpkg.
  apply Parse_invariants in HP as (s & -> & -> & _ & _ & _ & S).
  by apply (sr_duration _ S).
Qed.

(** X9: every test address of the returned report points into the
    returned memory and is listed once in the whole report, and every
    package lists at least one test. *)
Theorem report_tests_distinct ros r pkgName rep e h :
  Parse ros r pkgName = (Some rep, e, h) ->
  NoDup (allTests rep) /\
  (forall p, p ∈ allTests rep -> (p < length h)%nat) /\
  (forall pkg, pkg ∈ Packages rep -> Package_Tests pkg <> []).
Proof.
  intros HP.
  apply Parse_invariants in HP as (s & -> & -> & _ & W & _ & S).
  split; [apply (sr_nodup _ S)|]. split; [|apply (sr_tests _ S)].
  intros p (pkg & Hpkg & Hp)%elem_of_allTests. by apply (wf_report _ W pkg).
Qed.

(** X10: within a package of the returned report no two tests bear the
    same name. *)
Theorem report_names_distinct ros r pkgName rep e h pkg :
  Parse ros r pkgName = (Some rep, e, h) ->
  pkg ∈ Packages rep ->
  NoDup (names h (Package_Tests pkg)).
Proof.
  intros HP Hpkg.
  apply Parse_invariants in HP as (s & -> & -> & _ & _ & _ & S).
  by apply (sr_names _ S).
Qed.

(** X11: once a package is in the report it stays there as it is, and the
    Result and the Duration of the tests it lists are never changed by the
    lines that follow. *)
Theorem emitted_tests_settled ros before after pkg p :
  let s1 := runLines ros 0 init before in
  let s2 := runLines ros 0 init (before ++ after) in
  pkg ∈ Packages (report s1) ->
  p ∈ Package_Tests pkg ->
  pkg ∈ Packages (report s2) /\
  Test_Result (load (heap s2) p) = Test_Result (load (heap s1) p) /\
  Test_Duration (load (heap s2) p) = Test_Duration (load (heap s1) p).
Proof.
  cbv zeta. intros Hpkg Hp. rewrite runLines_app.
  apply runLines_settled; [|done|done]. apply runLines_wf, wf_init.
Qed.

(** X12: the lines that follow never remove a test from the memory, never
    change its name, and change its Output, Failure and SkipMsg only by
    appending to them. *)
Theorem memory_only_grows ros before after :
  let h1 := heap (runLines ros 0 init before) in
  let h2 := heap (runLines ros 0 init (before ++ after)) in
  (length h1 <= length h2)%nat /\
  forall p, (p < length h1)%nat ->
    Test_Name (load h2 p) = Test_Name (load h1 p) /\
    Test_Output (load h1 p) `prefix_of` Test_Output (load h2 p) /\
    Test_Failure (load h1 p) `prefix_of` Test_Failure (load h2 p) /\
    Test_SkipMsg (load h1 p) `prefix_of` Test_SkipMsg (load h2 p).
Proof.
  cbv zeta. rewrite runLines_app. apply runLines_continues.
Qed.

(** X13: every test of the returned memory has at least one line of
    Output, and its SubtestIndent and its deprecated Time are never set:
    they are empty and zero. *)
Theorem tests_as_created ros r pkgName rep e h t :
  Parse ros r pkgName = (Some rep, e, h) ->
  t ∈ h ->
  Test_Output t <> [] /\ Test_SubtestIndent t = "" /\ Test_Time t = 0.
Proof.
  intros HP Ht. apply Parse_runLines in HP as (_ & -> & _ & _).
  pose proof (runLines_as_created ros (reader_lines r) 0 init wf_init
                ltac:(constructor)) as F.
  rewrite Forall_forall in F. by apply F.
Qed.

(** X14: Failures applied to what Parse returns dereferences no nil
    pointer and is the number of listed tests whose Result is FAIL (the
    stream having fewer than 2^63 lines, the count does not wrap). *)
Theorem Failures_of_Parse ros r pkgName rep e h :
  Parse ros r pkgName = (Some rep, e, h) ->
  Z.of_nat (length (reader_lines r)) < 2 ^ 63 ->
  Failures h rep = Some (Z.of_nat (countFailed h rep)).
Proof.
  intros HP Hb.
  apply Parse_invariants in HP as (s & -> & -> & -> & W & _ & S).
  set (s := runLines ros 0 init (reader_lines r)) in *.
  assert (Hv : forall p, p ∈ allTests (report s) -> (p < length (heap s))%nat).
  { intros p (pkg & Hpkg & Hp)%elem_of_allTests. by apply (wf_report _ W pkg). }
  pose proof (nodup_bounded _ _ (sr_nodup _ S) Hv) as H1.
  pose proof (runLines_heap_length ros (reader_lines r) 0 init) as H2.
  simpl in H2. fold s in H2.
  unfold Failures, countFailed. change (Some 0) with (Some (Z.of_nat 0)).
  rewrite Failures_packages; [done|apply Hv|]. unfold allTests in H1. lia.
Qed.

(** X15: only a status line changes the current test; only a
    package-result line changes the report, and it leaves the memory as it
    is; a status line and a free-text line leave the buffer as it is, and
    allocate nothing. *)
Theorem rules_frame ro s line :
  let s' := step ro s line in
  (isStatusLine line = false -> cur s' = cur s) /\
  (isResultLine line = false -> report s' = report s) /\
  (isResultLine line = true -> heap s' = heap s /\ suites s' = ∅) /\
  (isStatusLine line = true \/ isFreeText line = true ->
   suites s' = suites s /\ length (heap s') = length (heap s)).
Proof.
  cbv zeta. split; [|split; [|split]].
  - intros H. destruct (step_cases ro s line); try done. congruence.
    congruence.
  - apply step_report_other.
  - intros H. by rewrite step_result.
  - intros H. destruct (step_cases ro s line); simpl;
      rewrite ?length_store; try done; destruct H; two_rules.
Qed.

End Returned.

(** ** Further properties at concrete inputs *)

Lemma twoPackages_returns :
  Parse (lib := refLib) canonical twoPackages ""
  = (Some twoPackagesReport, None, twoPackagesMemory).
Proof. vm_compute. reflexivity. Qed.

(** X1 on a package-result line. *)
Lemma result_line_prefix_witness :
  isResultLine "ok   pkgA 0.010s" = true /\
  exists c tail,
    space c = true /\
    ("ok   pkgA 0.010s" = "ok" +:+ String c tail
     \/ "ok   pkgA 0.010s" = "FAIL" +:+ String c tail).
Proof.
  split; [vm_compute; reflexivity|].
  apply (result_line_prefix "ok   pkgA 0.010s"). vm_compute. reflexivity.
Defined.

(** X2 on the summary line of a failed run. *)
Lemma summary_line_witness :
  FindStringSubmatch regexSummary "FAIL" <> [] /\
  ("FAIL" = "PASS" \/ "FAIL" = "FAIL" \/ "FAIL" = "SKIP") /\
  isResultLine "FAIL" = false /\ isStatusLine "FAIL" = false /\
  (json_Unmarshal (GoLib := refLib) "FAIL" = None ->
   isFreeText (lib := refLib) "FAIL" = true).
Proof.
  assert (H : FindStringSubmatch regexSummary "FAIL" <> [])
    by (vm_compute; discriminate).
  split; [exact H|]. exact (summary_line_is_free_text (lib := refLib) "FAIL" H).
Defined.

(** X4 on the package of a failed test. *)
Lemma findTest_emitted_witness :
  wf failedFoo /\
  suites failedFoo !! "pkgA" = Some {[ "TestFoo" := 0%nat ]} /\
  findTest (heap failedFoo)
    (Package_Tests (flushSuite canonicalOrder (heap failedFoo)
                      "pkgA" {[ "TestFoo" := 0%nat ]})) "TestFoo"
  = ({[ "TestFoo" := 0%nat ]} : gmap string nat) !! "TestFoo".
Proof.
  assert (H : suites failedFoo !! "pkgA" = Some {[ "TestFoo" := 0%nat ]})
    by (vm_compute; reflexivity).
  split; [exact wf_failedFoo|]. split; [exact H|].
  exact (findTest_emitted canonicalOrder failedFoo "pkgA"
           {[ "TestFoo" := 0%nat ]} "TestFoo" wf_failedFoo H).
Defined.

(** X5 on a subtest that a status line reports as failed. *)
Lemma slash_named_test_witness :
  let line := recordLine "pkgB" "TestBaz/sub" "y" in
  let after := ["--- FAIL: TestBaz/sub (0.03s)"; "ok pkgB 0.010s"] in
  isRecordLine (lib := refLib) line = true /\
  hasSlash "TestBaz/sub" /\
  exists rep h t,
    Parse (lib := refLib) canonical (mkReader ([] ++ line :: after) io_EOF) ""
    = (Some rep, None, h) /\
    h !! 0%nat = Some t /\
    Test_Name t = "TestBaz/sub" /\ Test_Result t = PASS /\ Test_Duration t = 0.
Proof.
  cbv zeta.
  assert (Hs : hasSlash "TestBaz/sub").
  { unfold hasSlash. simpl. do 7 right. left. reflexivity. }
  split; [vm_compute; reflexivity|]. split; [exact Hs|].
  apply (slash_named_test_unresolved (lib := refLib) canonical []
           (recordLine "pkgB" "TestBaz/sub" "y")
           ["--- FAIL: TestBaz/sub (0.03s)"; "ok pkgB 0.010s"]
           (mkInfo "pkgB" "TestBaz/sub" "y") "").
  - vm_compute; reflexivity.
  - vm_compute; reflexivity.
  - reflexivity.
  - exact Hs.
  - discriminate.
Defined.

(** X6 on a second record of a test. *)
Lemma parseLine_as_rule3_witness :
  let line := recordLine "pkgA" "TestFoo" "more" in
  line <> "" /\ isRecordLine (lib := refLib) line = true /\
  parseLine (lib := refLib) line (suites passedFoo) (heap passedFoo)
  = (suites (step (lib := refLib) canonicalOrder passedFoo line),
     heap (step (lib := refLib) canonicalOrder passedFoo line)).
Proof.
  cbv zeta.
  assert (H1 : recordLine "pkgA" "TestFoo" "more" <> "") by discriminate.
  assert (H2 : isRecordLine (lib := refLib) (recordLine "pkgA" "TestFoo" "more") = true)
    by (vm_compute; reflexivity).
  split; [exact H1|]. split; [exact H2|].
  exact (parseLine_as_rule3 (lib := refLib) canonicalOrder passedFoo _ H1 H2).
Defined.

Lemma twoPackagesB_listed : twoPackagesB ∈ Packages twoPackagesReport.
Proof. right. left. Qed.

(** X8 on the second package of the stream of two packages. *)
Lemma report_durations_witness :
  Parse (lib := refLib) canonical twoPackages ""
  = (Some twoPackagesReport, None, twoPackagesMemory) /\
  twoPackagesB ∈ Packages twoPackagesReport /\
  Package_Duration twoPackagesB
  = wrap64 (sumZ (durations twoPackagesMemory (Package_Tests twoPackagesB))) /\
  Package_Time twoPackagesB = Z.quot (Package_Duration twoPackagesB) Millisecond.
Proof.
  split; [exact twoPackages_returns|]. split; [exact twoPackagesB_listed|].
  exact (report_durations (lib := refLib) canonical twoPackages "" _ _ _ _
           twoPackages_returns twoPackagesB_listed).
Defined.

(** X9 on the stream of two packages. *)
Lemma report_tests_distinct_witness :
  Parse (lib := refLib) canonical twoPackages ""
  = (Some twoPackagesReport, None, twoPackagesMemory) /\
  NoDup (allTests twoPackagesReport) /\
  (forall p, p ∈ allTests twoPackagesReport ->
             (p < length twoPackagesMemory)%nat) /\
  (forall pkg, pkg ∈ Packages twoPackagesReport -> Package_Tests pkg <> []).
Proof.
  split; [exact twoPackages_returns|].
  exact (report_tests_distinct (lib := refLib) canonical twoPackages "" _ _ _
           twoPackages_returns).
Defined.

(** X10 on the second package of the stream of two packages. *)
Lemma report_names_distinct_witness :
  Parse (lib := refLib) canonical twoPackages ""
  = (Some twoPackagesReport, None, twoPackagesMemory) /\
  twoPackagesB ∈ Packages twoPackagesReport /\
  NoDup (names twoPackagesMemory (Package_Tests twoPackagesB)).
Proof.
  split; [exact twoPackages_returns|]. split; [exact twoPackagesB_listed|].
  exact (report_names_distinct (lib := refLib) canonical twoPackages "" _ _ _ _
           twoPackages_returns twoPackagesB_listed).
Defined.

Lemma twoPackagesA_listed :
  twoPackagesA ∈ Packages (report (runLines (lib := refLib) canonical 0 init linesA)).
Proof.
  assert (E : Packages (report (runLines (lib := refLib) canonical 0 init linesA))
              = [twoPackagesA]) by (vm_compute; reflexivity).
  rewrite E. left.
Qed.

(** X11 on the first package, through the lines of the second. *)
Lemma emitted_tests_settled_witness :
  let s1 := runLines (lib := refLib) canonical 0 init linesA in
  let s2 := runLines (lib := refLib) canonical 0 init (linesA ++ linesB) in
  twoPackagesA ∈ Packages (report s1) /\
  0%nat ∈ Package_Tests twoPackagesA /\
  twoPackagesA ∈ Packages (report s2) /\
  Test_Result (load (heap s2) 0) = Test_Result (load (heap s1) 0) /\
  Test_Duration (load (heap s2) 0) = Test_Duration (load (heap s1) 0).
Proof.
  cbv zeta.
  assert (H : 0%nat ∈ Package_Tests twoPackagesA) by left.
  split; [exact twoPackagesA_listed|]. split; [exact H|].
  exact (emitted_tests_settled (lib := refLib) canonical linesA linesB
           twoPackagesA 0 twoPackagesA_listed H).
Defined.

Lemma subtest_in_memory :
  mkTest "TestBaz/sub" 0 PASS ["y"] [] [] "" 0 ∈ twoPackagesMemory.
Proof. right. right. left. Qed.

(** X13 on the third test of the stream of two packages. *)
Lemma tests_as_created_witness :
  let t := mkTest "TestBaz/sub" 0 PASS ["y"] [] [] "" 0 in
  Parse (lib := refLib) canonical twoPackages ""
  = (Some twoPackagesReport, None, twoPackagesMemory) /\
  t ∈ twoPackagesMemory /\
  Test_Output t <> [] /\ Test_SubtestIndent t = "" /\ Test_Time t = 0.
Proof.
  cbv zeta.
  split; [exact twoPackages_returns|]. split; [exact subtest_in_memory|].
  exact (tests_as_created (lib := refLib) canonical twoPackages "" _ _ _ _
           twoPackages_returns subtest_in_memory).
Defined.

Lemma twoPackages_short : Z.of_nat (length (reader_lines twoPackages)) < 2 ^ 63.
Proof. vm_compute. reflexivity. Qed.

(** X14 on the stream of two packages. *)
Lemma Failures_of_Parse_witness :
  Parse (lib := refLib) canonical twoPackages ""
  = (Some twoPackagesReport, None, twoPackagesMemory) /\
  Z.of_nat (length (reader_lines twoPackages)) < 2 ^ 63 /\
  Failures twoPackagesMemory twoPackagesReport
  = Some (Z.of_nat (countFailed twoPackagesMemory twoPackagesReport)).
Proof.
  split; [exact twoPackages_returns|]. split; [exact twoPackages_short|].
  exact (Failures_of_Parse (lib := refLib) canonical twoPackages "" _ _ _
           twoPackages_returns twoPackages_short).
Defined.

Example Failures_twoPackages :
  Failures twoPackagesMemory twoPackagesReport = Some 1.
Proof. vm_compute. reflexivity. Qed.

(** ** Further properties: lines that have no effect *)

Section NoEffect.
Context {lib : GoLib}.

(** X16: after a status line whose test no suite files, there is no
    current test, so a free-text line that follows is dropped: the two lines
    together change nothing but the current test, which they clear. *)
Theorem orphan_status_drops_text ro1 ro2 s line1 line2 :
  isStatusLine line1 = true ->
  (forall suite, filed (suites s) suite (statusName line1) = None) ->
  isFreeText line2 = true ->
  step ro2 (step ro1 s line1) line2
  = mkState (report s) (suites s) None (heap s).
Proof.
  intros H1 Hn H2.
  assert (E : step ro1 s line1 = mkState (report s) (suites s) None (heap s)).
  { destruct (step_cases ro1 s line1); try two_rules.
    specialize (Hn suite). unfold filed in Hn. rewrite H0 in Hn. simpl in Hn.
    congruence. }
  rewrite E. by rewrite step_free.
Qed.

(** X17: a package-result line that finds the buffer empty adds no
    package and changes nothing; so of two package-result lines in a row the
    second has no effect. *)
Theorem result_line_on_empty_buffer ro1 ro2 s line1 line2 :
  isResultLine line1 = true ->
  isResultLine line2 = true ->
  (suites s = ∅ -> step ro1 s line1 = s) /\
  step ro2 (step ro1 s line1) line2 = step ro1 s line1.
Proof.
  intros H1 H2.
  assert (E : forall ro s', isResultLine line1 = true -> suites s' = ∅ ->
                            forall line, isResultLine line = true ->
                                         step ro s' line = s').
  { intros ro s' _ Hs line Hl. rewrite step_result by done. rewrite Hs.
    assert (R : rangeSuites ro ∅ = []).
    { apply Permutation_nil_r. rewrite rangeSuites_perm.
      by rewrite map_to_list_empty. }
    rewrite R. simpl. rewrite app_nil_r. destruct s' as [[r] ss c h].
    simpl in *. by subst. }
  split; [intros Hs; by apply (E ro1 s)|].
  apply (E ro2); [done| |done]. by rewrite step_result.
Qed.

End NoEffect.

(** X16 on a status line for a test that was never recorded. *)
Lemma orphan_status_witness :
  let line1 := "--- FAIL: TestUnknown (0.02s)" in
  let line2 := "detail of the unknown test" in
  isStatusLine line1 = true /\
  (forall suite, filed (suites failedFoo) suite (statusName line1) = None) /\
  isFreeText (lib := refLib) line2 = true /\
  step (lib := refLib) canonicalOrder
       (step (lib := refLib) canonicalOrder failedFoo line1) line2
  = mkState (report failedFoo) (suites failedFoo) None (heap failedFoo).
Proof.
  cbv zeta.
  assert (H1 : isStatusLine "--- FAIL: TestUnknown (0.02s)" = true)
    by (vm_compute; reflexivity).
  assert (H2 : forall suite,
             filed (suites failedFoo) suite
                   (statusName "--- FAIL: TestUnknown (0.02s)") = None).
  { intros suite.
    assert (E : suites failedFoo = {[ "pkgA" := {[ "TestFoo" := 0%nat ]} ]})
      by (vm_compute; reflexivity).
    assert (N : statusName "--- FAIL: TestUnknown (0.02s)" = "TestUnknown")
      by (vm_compute; reflexivity).
    rewrite E, N. unfold filed.
    destruct (decide (suite = "pkgA")) as [->|Hne].
    - rewrite lookup_singleton_eq. simpl. by apply lookup_singleton_ne.
    - by rewrite lookup_singleton_ne. }
  assert (H3 : isFreeText (lib := refLib) "detail of the unknown test" = true)
    by (vm_compute; reflexivity).
  split; [exact H1|]. split; [exact H2|]. split; [exact H3|].
  exact (orphan_status_drops_text (lib := refLib) canonicalOrder canonicalOrder
           failedFoo _ _ H1 H2 H3).
Defined.

(** X17 on the result lines of two packages, the second without records. *)
Lemma result_line_on_empty_buffer_witness :
  let line1 := "FAIL pkgA 0.020s" in
  let line2 := "ok   pkgB 0.010s" in
  isResultLine line1 = true /\ isResultLine line2 = true /\
  step (lib := refLib) canonicalOrder
       (step (lib := refLib) canonicalOrder failedFoo line1) line2
  = step (lib := refLib) canonicalOrder failedFoo line1.
Proof.
  cbv zeta.
  assert (H1 : isResultLine "FAIL pkgA 0.020s" = true) by (vm_compute; reflexivity).
  assert (H2 : isResultLine "ok   pkgB 0.010s" = true) by (vm_compute; reflexivity).
  split; [exact H1|]. split; [exact H2|].
  exact (proj2 (result_line_on_empty_buffer (lib := refLib) canonicalOrder
                  canonicalOrder failedFoo _ _ H1 H2)).
Defined.
